(** * The-Word-2: script classification, verse location, OCR configuration
      search and OCR accuracy verification

    A shallow embedding of the decision procedures of the repository:

    - [backend/scripts/language_detector.py]  (module [LanguageDetector])
    - [extract_hebrew_from_bhs.py]            (module [ExtractBhs])
    - [extract_scriptures_ocr.py]             (module [ExtractOcr])
    - [verify_ocr_accuracy.py]                (module [VerifyOcr])

    A Python [str] is a sequence of Unicode code points and is modelled as
    a list of code points.  Python [int]s are [Z] (or [N] where the code
    can only produce non-negative values), Python [float]s that the code
    computes by dividing two integers are exact rationals in lowest terms. *)

From Stdlib Require Import QArith Qminmax Ascii String DecimalString.
From Stdlib Require DecimalPos DecimalN.
From stdpp Require Import strings gmap list.

Local Open Scope N_scope.

(** ** Python strings *)

Abbreviation text := (list N).

(** An ASCII literal as a Python string. *)
Definition lit (s : string) : text :=
  (λ a, N_of_ascii a) <$> list_ascii_of_string s.

Module Py.

(** [needle in hay] on strings: literal substring test. *)
Fixpoint startswith (p s : text) : bool :=
  match p, s with
  | [], _ => true
  | _ :: _, [] => false
  | a :: p', b :: s' => (a =? b) && startswith p' s'
  end.

Fixpoint contains (needle hay : text) : bool :=
  startswith needle hay ||
  match hay with
  | [] => false
  | _ :: hay' => contains needle hay'
  end.

(** [sep.join(parts)]. *)
Fixpoint join (sep : text) (parts : list text) : text :=
  match parts with
  | [] => []
  | [p] => p
  | p :: rest => p ++ sep ++ join sep rest
  end.

(** [s.replace(c, '')] for a one-character [c]. *)
Definition remove_char (c : N) (s : text) : text :=
  filter (λ x, x ≠ c) s.

(** [str.lower].  Exact on ASCII and on U+212A KELVIN SIGN, the only
    non-ASCII code point whose lower case is a single ASCII letter.
    Every other non-ASCII code point lower-cases to non-ASCII text; the
    tables below have ASCII keys only, so look-ups are not affected by
    leaving those code points unchanged. *)
Definition lower_char (c : N) : N :=
  if (65 <=? c) && (c <=? 90) then c + 32
  else if c =? 0x212A then 107
  else c.

Definition lower (s : text) : text := lower_char <$> s.

(** [str.isspace] on one code point; also the class [\s] of [re] on
    [str] patterns. *)
Definition isspace (c : N) : bool :=
  ((0x09 <=? c) && (c <=? 0x0D)) || ((0x1C <=? c) && (c <=? 0x20))
  || (c =? 0x85) || (c =? 0xA0) || (c =? 0x1680)
  || ((0x2000 <=? c) && (c <=? 0x200A))
  || (c =? 0x2028) || (c =? 0x2029) || (c =? 0x202F)
  || (c =? 0x205F) || (c =? 0x3000).

(** Code points of the ten-digit blocks of Unicode category Nd (their
    zeros): the class [\d] of [re] on [str] patterns, and the digits
    [int()] accepts. *)
Definition decimal_zeros : list N :=
  [0x0030; 0x0660; 0x06F0; 0x07C0; 0x0966; 0x09E6; 0x0A66; 0x0AE6;
   0x0B66; 0x0BE6; 0x0C66; 0x0CE6; 0x0D66; 0x0DE6; 0x0E50; 0x0ED0;
   0x0F20; 0x1040; 0x1090; 0x17E0; 0x1810; 0x1946; 0x19D0; 0x1A80;
   0x1A90; 0x1B50; 0x1BB0; 0x1C40; 0x1C50; 0xA620; 0xA8D0; 0xA900;
   0xA9D0; 0xA9F0; 0xAA50; 0xABF0; 0xFF10; 0x104A0; 0x10D30; 0x11066;
   0x110F0; 0x11136; 0x111D0; 0x112F0; 0x11450; 0x114D0; 0x11650;
   0x116C0; 0x11730; 0x118E0; 0x11950; 0x11C50; 0x11D50; 0x11DA0;
   0x16A60; 0x16AC0; 0x16B50; 0x1D7CE; 0x1D7D8; 0x1D7E2; 0x1D7EC;
   0x1D7F6; 0x1E140; 0x1E2F0; 0x1E950; 0x1FBF0].

Fixpoint digit_in (zeros : list N) (c : N) : option N :=
  match zeros with
  | [] => None
  | z :: zeros' =>
      if (z <=? c) && (c <? z + 10) then Some (c - z)
      else digit_in zeros' c
  end.

(** The decimal value of a code point, when it is a decimal digit. *)
Definition digit_value (c : N) : option N := digit_in decimal_zeros c.

Definition isdigit (c : N) : bool :=
  match digit_value c with Some _ => true | None => false end.

(** [int(s)] for a non-empty string of decimal digits (the only use in
    the sources is on a group matched by [\d+]).  CPython's limit on the
    number of digits [int] accepts is not modelled. *)
Definition int_of_digits (s : text) : N :=
  foldl (λ acc c, 10 * acc + default 0 (digit_value c)) 0 s.

(** [str(n)] for a non-negative integer. *)
Definition str_of_N (n : N) : text :=
  lit (NilEmpty.string_of_uint (N.to_uint n)).

(** [a / b] on integers: [None] stands for [ZeroDivisionError]. *)
Definition truediv (a b : Z) : option Q :=
  if (b =? 0)%Z then None else Some (Qred (inject_Z a / inject_Z b)).

(** [min(x, y)]: the first argument unless the second is smaller. *)
Definition min (x y : Q) : Q :=
  if Qle_bool x y then x else y.

(** [str(z)] for an integer. *)
Definition str_of_Z (z : Z) : text :=
  if (z <? 0)%Z then 45 :: str_of_N (Z.abs_N z) else str_of_N (Z.to_N z).

End Py.

(** ** Regular expressions used by the scripts *)

Module Re.

(** [re.compile('[...]+').findall(s)]: the maximal runs of code points
    of a class, left to right. *)
Definition close_run (cur : text) : list text :=
  match cur with [] => [] | _ => [cur] end.

Fixpoint scan_runs (cls : N → bool) (cur s : text) : list text :=
  match s with
  | [] => close_run cur
  | c :: s' =>
      if cls c then scan_runs cls (cur ++ [c]) s'
      else close_run cur ++ scan_runs cls [] s'
  end.

Definition findall (cls : N → bool) (s : text) : list text :=
  scan_runs cls [] s.

(** [re.sub('[...]', '', s)]: delete the code points of a class. *)
Definition delete_class (cls : N → bool) (s : text) : text :=
  filter (λ c, cls c = false) s.

(** [bool(re.compile('[...]+').search(s))]: some code point of the class
    occurs. *)
Definition search (cls : N → bool) (s : text) : bool := existsb cls s.

End Re.

(** ** backend/scripts/language_detector.py *)

Module LanguageDetector.

(** HEBREW_PATTERN, GREEK_PATTERN and IMPERIAL_ARAMAIC_PATTERN. *)
Definition hebrew_class (c : N) : bool := (0x0590 <=? c) && (c <=? 0x05FF).

Definition greek_class (c : N) : bool :=
  ((0x0370 <=? c) && (c <=? 0x03FF)) || ((0x1F00 <=? c) && (c <=? 0x1FFF)).

Definition imperial_aramaic_class (c : N) : bool :=
  (0x10840 <=? c) && (c <=? 0x1085F).

Definition HEBREW_PATTERN : text → list text := Re.findall hebrew_class.
Definition GREEK_PATTERN : text → list text := Re.findall greek_class.
Definition IMPERIAL_ARAMAIC_PATTERN : text → list text :=
  Re.findall imperial_aramaic_class.

(** One entry of ARAMAIC_PASSAGES: chapter ranges
    [(ch_start, v_start, ch_end, v_end)] and a set of [(chapter, verse)]. *)
Record passage_info := {
  chapters : list (Z * Z * Z * Z);
  verses : gset (Z * Z)
}.

(** [range(a, b)]. *)
Definition range (a b : Z) : list Z :=
  (λ i, (a + Z.of_nat i)%Z) <$> seq 0 (Z.to_nat (b - a)).

Definition in_chapter (ch : Z) (vs : list Z) : list (Z * Z) :=
  (λ v, (ch, v)) <$> vs.

Definition ARAMAIC_PASSAGES : gmap (list N) passage_info :=
  <[lit "daniel" :=
      {| chapters := [(2, 4, 7, 28)%Z]; verses := ∅ |}]>
  (<[lit "ezra" :=
      {| chapters := [];
         verses := list_to_set
           (in_chapter 4 (range 8 25) ++ in_chapter 5 (range 1 18)
            ++ in_chapter 6 (range 1 19) ++ in_chapter 7 (range 12 27)) |}]>
  (<[lit "jeremiah" :=
      {| chapters := []; verses := {[ (10, 11)%Z ]} |}]>
  (<[lit "genesis" :=
      {| chapters := []; verses := {[ (31, 47)%Z ]} |}]> ∅))).

(** ARAMAIC_VOCABULARY.  The source holds these words in a set, whose
    iteration order Python does not fix; the order here is that of the
    source text and only shows in the order of [aramaic_words]. *)
Definition ARAMAIC_VOCABULARY : list text :=
  [ [0x05D3; 0x05B4; 0x05BC; 0x05D9];
    [0x05D3; 0x05D9];
    [0x05DE; 0x05B7; 0x05DC; 0x05B0; 0x05DB; 0x05B8; 0x05BC; 0x05D0];
    [0x05DE; 0x05DC; 0x05DB; 0x05D0];
    [0x05D0; 0x05B1; 0x05DC; 0x05B8; 0x05D4; 0x05BC];
    [0x05D0; 0x05DC; 0x05D4];
    [0x05E7; 0x05B3; 0x05D3; 0x05B8; 0x05DD];
    [0x05E7; 0x05D3; 0x05DD];
    [0x05DB; 0x05B0; 0x05BC; 0x05E2; 0x05B7; 0x05DF];
    [0x05DB; 0x05E2; 0x05DF];
    [0x05DC; 0x05B8; 0x05D0];
    [0x05DC; 0x05D0];
    [0x05D4; 0x05B2; 0x05D5; 0x05B8; 0x05D0];
    [0x05D4; 0x05D5; 0x05D0] ].

(** The map of common variations in [is_aramaic_passage]. *)
Definition book_map : gmap (list N) text :=
  list_to_map
    [ (lit "1samuel", lit "samuel1"); (lit "2samuel", lit "samuel2");
      (lit "1kings", lit "kings1"); (lit "2kings", lit "kings2");
      (lit "1chronicles", lit "chronicles1");
      (lit "2chronicles", lit "chronicles2") ].

(** [book.lower().replace(' ', '').replace('-', '')], then [book_map]. *)
Definition normalize_book (book : text) : text :=
  let book_lower := Py.remove_char 45 (Py.remove_char 32 (Py.lower book)) in
  default book_lower (book_map !! book_lower).

(** The loop over the chapter ranges of one entry. *)
Fixpoint in_chapter_ranges (rs : list (Z * Z * Z * Z)) (chapter verse : Z)
  : bool :=
  match rs with
  | [] => false
  | (ch_start, v_start, ch_end, v_end) :: rs' =>
      if ((ch_start <=? chapter) && (chapter <=? ch_end))%Z then
        if ((chapter =? ch_start) && (verse >=? v_start))%Z then true
        else if ((chapter =? ch_end) && (verse <=? v_end))%Z then true
        else if ((ch_start <? chapter) && (chapter <? ch_end))%Z then true
        else in_chapter_ranges rs' chapter verse
      else in_chapter_ranges rs' chapter verse
  end.

Definition is_aramaic_passage (book : text) (chapter verse : Z) : bool :=
  match ARAMAIC_PASSAGES !! normalize_book book with
  | None => false
  | Some passage_info =>
      if bool_decide ((chapter, verse) ∈ verses passage_info) then true
      else in_chapter_ranges (chapters passage_info) chapter verse
  end.

(** [detect_aramaic_vocabulary]: (is_likely_aramaic, matched, confidence). *)
Definition detect_aramaic_vocabulary (t : text)
  : option (bool * list text * Q) :=
  match t with
  | [] => Some (false, [], 0%Q)
  | _ =>
      let matched := filter (λ word, Py.contains word t = true)
                            ARAMAIC_VOCABULARY in
      match matched with
      | [] => Some (false, [], 0%Q)
      | _ =>
          q ← Py.truediv (Z.of_nat (length matched)) 3;
          Some (bool_decide (1 ≤ length matched)%nat, matched, Py.min q 1%Q)
      end
  end.

Inductive Language := hebrew | greek | aramaic | unknown.

(** The dictionary [detect_language] returns. *)
Record Detection := {
  language : Language;
  confidence : Q;
  matches : list text;
  hebrew_count : Z;
  greek_count : Z;
  aramaic_count : Z;
  aramaic_words : list text;
  is_known_aramaic_passage : bool
}.

(** The [text] argument: a [str], or any other object, of which the guard
    of [detect_language] only looks at the truth value. *)
Inductive TextArg :=
| Str (s : text)
| NotStr (truthy : bool).

Definition unknown_detection : Detection :=
  {| language := unknown; confidence := 0%Q; matches := [];
     hebrew_count := 0; greek_count := 0; aramaic_count := 0;
     aramaic_words := []; is_known_aramaic_passage := false |}.

(** [book and chapter and verse], then [is_aramaic_passage]: the hints
    are optional, and an empty book or a zero number counts as absent. *)
Definition known_passage (book : option text) (chapter verse : option Z)
  : bool :=
  match book, chapter, verse with
  | Some b, Some c, Some v =>
      if bool_decide (b ≠ []) && bool_decide (c ≠ 0%Z)
         && bool_decide (v ≠ 0%Z)
      then is_aramaic_passage b c v else false
  | _, _, _ => false
  end.

Definition len (l : list text) : Z := Z.of_nat (length l).

(** [detect_language]; [None] stands for a raised exception. *)
Definition detect_language (t : TextArg) (book : option text)
    (chapter verse : option Z) : option Detection :=
  match t with
  | NotStr _ | Str [] => Some unknown_detection
  | Str text =>
      let hebrew_matches := HEBREW_PATTERN text in
      let greek_matches := GREEK_PATTERN text in
      let imperial_aramaic_matches := IMPERIAL_ARAMAIC_PATTERN text in
      let hebrew_count := len hebrew_matches in
      let greek_count := len greek_matches in
      let imperial_aramaic_count := len imperial_aramaic_matches in
      let is_known_aramaic := known_passage book chapter verse in
      '(has_aramaic_vocab, aramaic_words, vocab_confidence)
        ← detect_aramaic_vocabulary text;
      let result language confidence matches aramaic_count :=
        {| language := language; confidence := confidence;
           matches := matches; hebrew_count := hebrew_count;
           greek_count := greek_count; aramaic_count := aramaic_count;
           aramaic_words := aramaic_words;
           is_known_aramaic_passage := is_known_aramaic |} in
      if is_known_aramaic && (0 <? hebrew_count)%Z then
        Some (result aramaic 0.95%Q hebrew_matches hebrew_count)
      else if (0 <? imperial_aramaic_count)%Z then
        let aramaic_matches := hebrew_matches ++ imperial_aramaic_matches in
        let aramaic_count := len aramaic_matches in
        let total :=
          (hebrew_count + greek_count + imperial_aramaic_count)%Z in
        confidence ← (if (0 <? total)%Z then Py.truediv aramaic_count total
                      else Some 1%Q);
        Some (result aramaic confidence aramaic_matches aramaic_count)
      else if has_aramaic_vocab && (0 <? hebrew_count)%Z
              && negb (Qle_bool vocab_confidence 0.5%Q) then
        Some (result aramaic vocab_confidence hebrew_matches hebrew_count)
      else if (0 <? hebrew_count)%Z then
        let total := (hebrew_count + greek_count)%Z in
        confidence ← (if (0 <? total)%Z then Py.truediv hebrew_count total
                      else Some 1%Q);
        Some (result hebrew confidence hebrew_matches 0%Z)
      else if (0 <? greek_count)%Z then
        let total := (hebrew_count + greek_count)%Z in
        confidence ← (if (0 <? total)%Z then Py.truediv greek_count total
                      else Some 1%Q);
        Some (result greek confidence greek_matches 0%Z)
      else
        Some (result unknown 0%Q [] 0%Z)
  end.

Definition has_hebrew (t : text) : bool := Re.search hebrew_class t.

Definition has_greek (t : text) : bool := Re.search greek_class t.

Definition has_aramaic (t : text) : bool :=
  Re.search imperial_aramaic_class t.

Definition extract_hebrew (t : text) : text :=
  Py.join (lit " ") (HEBREW_PATTERN t).

Definition extract_greek (t : text) : text :=
  Py.join (lit " ") (GREEK_PATTERN t).


End LanguageDetector.


(** ** extract_hebrew_from_bhs.py *)

Module ExtractBhs.

(** HEBREW_PATTERN of this script (its extra ranges lie inside the
    Hebrew block). *)
Definition hebrew_class (c : N) : bool :=
  ((0x0590 <=? c) && (c <=? 0x05FF)) || ((0x05B0 <=? c) && (c <=? 0x05BC))
  || ((0x05C1 <=? c) && (c <=? 0x05C2))
  || ((0x05C4 <=? c) && (c <=? 0x05C5)) || (c =? 0x05C7).

Definition HEBREW_PATTERN : text → list text := Re.findall hebrew_class.

(** [text.split('\n')]. *)
Fixpoint split_cur (sep : N) (cur s : text) : list text :=
  match s with
  | [] => [cur]
  | c :: s' =>
      if c =? sep then cur :: split_cur sep [] s'
      else split_cur sep (cur ++ [c]) s'
  end.

Definition split_lines (t : text) : list text := split_cur 10 [] t.

(** The longest prefix of digits, and the rest. *)
Fixpoint span_digits (s : text) : text * text :=
  match s with
  | [] => ([], [])
  | c :: s' =>
      if Py.isdigit c then
        let '(ds, rest) := span_digits s' in (c :: ds, rest)
      else ([], s)
  end.

(** [(\d+):(\d+)] matched at the start of [s]: the two groups. *)
Definition verse_pattern_match (s : text) : option (text * text) :=
  match span_digits s with
  | ((_ :: _) as g1, 58 :: rest) =>
      match span_digits rest with
      | ((_ :: _) as g2, _) => Some (g1, g2)
      | _ => None
      end
  | _ => None
  end.

(** [verse_pattern.search(line)]: the leftmost match. *)
Fixpoint verse_pattern_search (line : text) : option (text * text) :=
  match verse_pattern_match line with
  | Some g => Some g
  | None =>
      match line with
      | [] => None
      | _ :: line' => verse_pattern_search line'
      end
  end.

(** What a code point of the text is compared as under [re.IGNORECASE]:
    the ASCII capitals, U+0130, U+0131, U+017F and U+212A are the code
    points that match an ASCII small letter other than themselves. *)
Definition ignorecase (c : N) : N :=
  if (65 <=? c) && (c <=? 90) then c + 32
  else if (c =? 0x0130) || (c =? 0x0131) then 105
  else if c =? 0x017F then 115
  else if c =? 0x212A then 107
  else c.

(** book_patterns: an English name, a Hebrew name, the book id. *)
Definition book_patterns : list (text * text * text) :=
  [ (lit "genesis", [0x05D1; 0x05E8; 0x05D0; 0x05E9; 0x05D9; 0x05EA],
     lit "genesis");
    (lit "exodus", [0x05E9; 0x05DE; 0x05D5; 0x05EA], lit "exodus");
    (lit "leviticus", [0x05D5; 0x05D9; 0x05E7; 0x05E8; 0x05D0],
     lit "leviticus");
    (lit "numbers", [0x05D1; 0x05DE; 0x05D3; 0x05D1; 0x05E8],
     lit "numbers");
    (lit "deuteronomy", [0x05D3; 0x05D1; 0x05E8; 0x05D9; 0x05DD],
     lit "deuteronomy") ].

(** [re.search('name|hebrew', line, re.IGNORECASE)]. *)
Definition book_pattern_search (english hebrew line : text) : bool :=
  Py.contains english (ignorecase <$> line)
  || Py.contains hebrew (ignorecase <$> line).

(** The loop over [book_patterns] with its [break]: the first book whose
    pattern is found in the line. *)
Fixpoint find_book (patterns : list (text * text * text)) (line : text)
  : option text :=
  match patterns with
  | [] => None
  | (english, hebrew, book_id) :: patterns' =>
      if book_pattern_search english hebrew line then Some book_id
      else find_book patterns' line
  end.

(** The variables of the loop of [parse_verses_from_text]. *)
Record State := {
  current_book : text;
  current_chapter : N;
  current_verse : N;
  verses : gmap (list N) text
}.

Definition initial : State :=
  {| current_book := lit "genesis"; current_chapter := 1;
     current_verse := 0; verses := ∅ |}.

(** The key ["{book}-{chapter}-{verse}"]. *)
Definition verse_key (book : text) (chapter verse : N) : text :=
  book ++ lit "-" ++ Py.str_of_N chapter ++ lit "-" ++ Py.str_of_N verse.

(** The first two parts of the loop body: book header, then
    chapter:verse reference. *)
Definition locate (st : State) (line : text) : text * N * N :=
  let '(book, chapter, verse) :=
    match find_book book_patterns line with
    | Some book_id => (book_id, 1, 0)
    | None => (current_book st, current_chapter st, current_verse st)
    end in
  match verse_pattern_search line with
  | Some (g1, g2) => (book, Py.int_of_digits g1, Py.int_of_digits g2)
  | None => (book, chapter, verse)
  end.

(** The last part: the Hebrew of the line goes to the current verse. *)
Definition record_hebrew (book : text) (chapter verse : N) (line : text)
    (verses : gmap (list N) text) : gmap (list N) text :=
  let hebrew_in_line := HEBREW_PATTERN line in
  if bool_decide (hebrew_in_line ≠ []) && (0 <? verse) then
    let key := verse_key book chapter verse in
    let hebrew_text := Py.join (lit " ") hebrew_in_line in
    match verses !! key with
    | None => <[key := hebrew_text]> verses
    | Some old => <[key := old ++ lit " " ++ hebrew_text]> verses
    end
  else verses.

(** One iteration of the loop over the lines. *)
Definition step (st : State) (line : text) : State :=
  let '(book, chapter, verse) := locate st line in
  {| current_book := book; current_chapter := chapter;
     current_verse := verse;
     verses := record_hebrew book chapter verse line (verses st) |}.

Definition scan (st : State) (lines : list text) : State :=
  foldl step st lines.

Definition parse_verses_from_text (t : text) : gmap (list N) text :=
  verses (scan initial (split_lines t)).

End ExtractBhs.


(** ** extract_scriptures_ocr.py *)

Module ExtractOcr.

Record OCRConfig := {
  dpi : Z;
  enhance_contrast : Q;
  sharpen : bool;
  denoise : bool;
  threshold : bool;
  tesseract_psm : Z;
  tesseract_oem : Z
}.

(** [OCRConfig()]: the defaults of the dataclass. *)
Definition OCRConfig_default : OCRConfig :=
  {| dpi := 300; enhance_contrast := 1.5; sharpen := true; denoise := true;
     threshold := false; tesseract_psm := 6; tesseract_oem := 3 |}.

Definition hebrew_class (c : N) : bool :=
  ((0x0590 <=? c) && (c <=? 0x05FF)) || ((0xFB1D <=? c) && (c <=? 0xFB4F)).

Definition greek_class (c : N) : bool :=
  ((0x0370 <=? c) && (c <=? 0x03FF)) || ((0x1F00 <=? c) && (c <=? 0x1FFF)).

Definition HEBREW_PATTERN : text → list text := Re.findall hebrew_class.
Definition GREEK_PATTERN : text → list text := Re.findall greek_class.

(** The lambda of the binarization: [0 if x < 128 else 255]. *)
Definition binarize_level (x : Z) : Z := if (x <? 128)%Z then 0%Z else 255%Z.

(** *** Image processing

    The imaging library is outside the repository: its image type and the
    operations [preprocess_image] calls are the variables of this
    section. *)
Section ImageProcessing.

Variable Image : Type.
(** [img.mode]. *)
Variable mode : Image → string.
(** [img.convert(mode)]. *)
Variable convert : string → Image → Image.
(** [ImageEnhance.Contrast(img).enhance(factor)]. *)
Variable Contrast_enhance : Image → Q → Image.
(** [img.filter(ImageFilter.SHARPEN)]. *)
Variable filter_SHARPEN : Image → Image.
(** [img.filter(ImageFilter.MedianFilter(size))]. *)
Variable filter_MedianFilter : Z → Image → Image.
(** [img.point(f, mode)]. *)
Variable point : (Z → Z) → string → Image → Image.

Definition preprocess_image (img : Image) (config : OCRConfig) : Image :=
  let img := if negb (String.eqb (mode img) "L") then convert "L" img
             else img in
  let img := if negb (Qeq_bool (enhance_contrast config) 1)
             then Contrast_enhance img (enhance_contrast config)
             else img in
  let img := if sharpen config then filter_SHARPEN img else img in
  let img := if denoise config then filter_MedianFilter 3 img else img in
  let img := if threshold config
             then convert "L" (point binarize_level "1" img)
             else img in
  img.

End ImageProcessing.

(** *** Configuration search *)

(** A dictionary with its insertion order: [d[k] = v] and [d.items()]. *)
Fixpoint dict_set {V} (k : text) (v : V) (d : list (text * V))
  : list (text * V) :=
  match d with
  | [] => [(k, v)]
  | (k', v') :: d' =>
      if bool_decide (k' = k) then (k, v) :: d'
      else (k', v') :: dict_set k v d'
  end.

(** [max(iterable, key=...)]: the first of the greatest elements; [None]
    stands for the [ValueError] on an empty iterable. *)
Fixpoint max_from {A} (key : A → Z) (best : A) (l : list A) : A :=
  match l with
  | [] => best
  | x :: l' => max_from key (if (key best <? key x)%Z then x else best) l'
  end.

Definition py_max {A} (key : A → Z) (l : list A) : option A :=
  match l with
  | [] => None
  | x :: l' => Some (max_from key x l')
  end.

(** The entry [test_ocr_configs] records for one configuration. *)
Record Yield := {
  hebrew_count : Z;
  greek_count : Z;
  total_chars : Z;
  sample : text
}.

(** The configurations [test_ocr_configs] tries, in the order of the
    source. *)
Definition configs : list (text * OCRConfig) :=
  let d := OCRConfig_default in
  [ (lit "default", d);
    (lit "high_contrast",
     {| dpi := dpi d; enhance_contrast := 2; sharpen := sharpen d;
        denoise := denoise d; threshold := threshold d;
        tesseract_psm := tesseract_psm d;
        tesseract_oem := tesseract_oem d |});
    (lit "threshold",
     {| dpi := dpi d; enhance_contrast := enhance_contrast d;
        sharpen := sharpen d; denoise := denoise d; threshold := true;
        tesseract_psm := tesseract_psm d;
        tesseract_oem := tesseract_oem d |});
    (lit "high_dpi",
     {| dpi := 400; enhance_contrast := enhance_contrast d;
        sharpen := sharpen d; denoise := denoise d;
        threshold := threshold d; tesseract_psm := tesseract_psm d;
        tesseract_oem := tesseract_oem d |});
    (lit "psm3",
     {| dpi := dpi d; enhance_contrast := enhance_contrast d;
        sharpen := sharpen d; denoise := denoise d;
        threshold := threshold d; tesseract_psm := 3;
        tesseract_oem := tesseract_oem d |});
    (lit "psm11",
     {| dpi := dpi d; enhance_contrast := enhance_contrast d;
        sharpen := sharpen d; denoise := denoise d;
        threshold := threshold d; tesseract_psm := 11;
        tesseract_oem := tesseract_oem d |}) ].

Section ConfigSearch.

(** Rendering the page, preprocessing it and running the OCR engine
    with one configuration: the raw text of the page. *)
Variable recognize : OCRConfig → text.

(** The part of [extract_from_page] that [test_ocr_configs] reads. *)
Definition yield_of (config : OCRConfig) : Yield :=
  let raw_text := recognize config in
  let hebrew_segments := HEBREW_PATTERN raw_text in
  let greek_segments := GREEK_PATTERN raw_text in
  let hebrew_text := Py.join (lit " ") hebrew_segments in
  let greek_text := Py.join (lit " ") greek_segments in
  {| hebrew_count := Z.of_nat (length hebrew_segments);
     greek_count := Z.of_nat (length greek_segments);
     total_chars := Z.of_nat (length raw_text);
     sample := match hebrew_text with
               | [] => take 100 greek_text
               | _ => take 100 hebrew_text
               end |}.

(** The loop filling [results], over a list of named configurations. *)
Definition run_configs (candidates : list (text * OCRConfig))
  : list (text * Yield) :=
  foldl (λ results '(name, config), dict_set name (yield_of config) results)
        [] candidates.

Definition best_hebrew (results : list (text * Yield))
  : option (text * Yield) :=
  py_max (λ x, hebrew_count x.2) results.

Definition best_greek (results : list (text * Yield))
  : option (text * Yield) :=
  py_max (λ x, greek_count x.2) results.

(** [test_ocr_configs]: the results, and the two configurations it
    reports as best. *)
Definition test_ocr_configs
  : list (text * Yield) * option (text * Yield) * option (text * Yield) :=
  let results := run_configs configs in
  (results, best_hebrew results, best_greek results).

End ConfigSearch.

End ExtractOcr.

(** ** extract_scriptures_ocr.py: pages of a document *)

Module ProcessPdf.

(** [(\d+)[:\.](\d+)] matched at the start of [s]: the two groups. *)
Definition verse_ref_match (s : text) : option (text * text) :=
  match ExtractBhs.span_digits s with
  | ((_ :: _) as g1, sep :: rest) =>
      if (sep =? 58) || (sep =? 46) then
        match ExtractBhs.span_digits rest with
        | ((_ :: _) as g2, _) => Some (g1, g2)
        | _ => None
        end
      else None
  | _ => None
  end.

(** [VERSE_REF_PATTERN.findall(s)]: the matches from left to right, each
    search starting where the previous match ended; [skip] counts the code
    points of the previous match still to pass. *)
Fixpoint verse_ref_findall (skip : nat) (s : text) : list (text * text) :=
  match s with
  | [] => []
  | _ :: s' =>
      match skip with
      | S skip' => verse_ref_findall skip' s'
      | O =>
          match verse_ref_match s with
          | Some (g1, g2) =>
              (g1, g2) :: verse_ref_findall (length g1 + length g2) s'
          | None => verse_ref_findall 0 s'
          end
      end
  end.

Definition VERSE_REF_PATTERN : text → list (text * text) :=
  verse_ref_findall 0.

(** The dictionary [extract_from_page] returns. *)
Record PageResult := {
  page : Z;
  raw_text : text;
  hebrew_segments : list text;
  greek_segments : list text;
  hebrew_text : text;
  greek_text : text;
  verse_refs : list text;
  language_detected : LanguageDetector.Language;
  confidence : Q;
  hebrew_count : Z;
  greek_count : Z
}.

(** The entry [process_pdf] keeps for a page. *)
Record PageEntry := {
  entry_hebrew_segments : list text;
  entry_greek_segments : list text;
  entry_hebrew_text : text;
  entry_greek_text : text;
  entry_verse_refs : list text
}.

(** What the loop of [process_pdf] updates: the pages, the two totals of
    the summary and [pages_processed]. *)
Record Results := {
  pages : list (text * PageEntry);
  total_hebrew : Z;
  total_greek : Z;
  pages_processed : Z
}.

(** [d.get(k)]. *)
Fixpoint dict_get {V} (k : text) (d : list (text * V)) : option V :=
  match d with
  | [] => None
  | (k', v) :: d' => if bool_decide (k' = k) then Some v else dict_get k d'
  end.

(** KNOWN_HEBREW and KNOWN_GREEK. *)
Definition KNOWN_HEBREW : list (text * text) :=
  [ (lit "genesis-1-1",
     [0x05D1; 0x05B0; 0x05BC; 0x05E8; 0x05B5; 0x05D0; 0x05E9; 0x05B4;
      0x05C1; 0x05D9; 0x05EA]);
    (lit "genesis-1-3",
     [0x05D9; 0x05B0; 0x05D4; 0x05B4; 0x05D9; 0x0020; 0x05D0; 0x05D5;
      0x05B9; 0x05E8]);
    (lit "psalm-23-1",
     [0x05D9; 0x05B0; 0x05D4; 0x05D5; 0x05B8; 0x05D4; 0x0020; 0x05E8;
      0x05B9; 0x05E2; 0x05B4; 0x05D9]) ].

Definition KNOWN_GREEK : list (text * text) :=
  [ (lit "john-1-1",
     [0x1F18; 0x03BD; 0x0020; 0x1F00; 0x03C1; 0x03C7; 0x1FC7; 0x0020;
      0x1F26; 0x03BD; 0x0020; 0x1F41; 0x0020; 0x03BB; 0x03CC; 0x03B3;
      0x03BF; 0x03C2]);
    (lit "john-3-16",
     [0x03BF; 0x1F55; 0x03C4; 0x03C9; 0x03C2; 0x0020; 0x03B3; 0x1F70;
      0x03C1; 0x0020; 0x1F20; 0x03B3; 0x03AC; 0x03C0; 0x03B7; 0x03C3;
      0x03B5; 0x03BD]) ].

(** [validate_against_known], on the pages of the results. *)
Definition validate_against_known (pages : list (text * PageEntry))
  : list (text * bool) :=
  let all_hebrew :=
    Py.join (lit " ") ((λ p, entry_hebrew_text p.2) <$> pages) in
  let all_greek :=
    Py.join (lit " ") ((λ p, entry_greek_text p.2) <$> pages) in
  let validations :=
    foldl (λ validations '(ref, expected),
             ExtractOcr.dict_set (lit "hebrew_" ++ ref)
               (Py.contains expected all_hebrew) validations)
          [] KNOWN_HEBREW in
  foldl (λ validations '(ref, expected),
           ExtractOcr.dict_set (lit "greek_" ++ ref)
             (Py.contains expected all_greek) validations)
        validations KNOWN_GREEK.

Section Pages.

(** The imaging library, the renderer of the document and the OCR engine
    (for the language asked); [None] stands for a raised exception. *)
Variable Image : Type.
Variable mode : Image → string.
Variable convert : string → Image → Image.
Variable Contrast_enhance : Image → Q → Image.
Variable filter_SHARPEN : Image → Image.
Variable filter_MedianFilter : Z → Image → Image.
Variable point : (Z → Z) → string → Image → Image.
Variable pdf_page_to_image : Z → Z → option Image.
Variable image_to_string : Image → text → option text.

(** [run_tesseract]: an error of the engine is caught and gives the empty
    string. *)
Definition run_tesseract (img : Image) (config : ExtractOcr.OCRConfig)
  : text :=
  let custom_config :=
    lit "--psm " ++ Py.str_of_Z (ExtractOcr.tesseract_psm config)
    ++ lit " --oem " ++ Py.str_of_Z (ExtractOcr.tesseract_oem config) in
  match image_to_string img custom_config with
  | Some t => t
  | None => []
  end.

Definition extract_from_page (page_num : Z) (config : ExtractOcr.OCRConfig)
  : option PageResult :=
  img ← pdf_page_to_image page_num (ExtractOcr.dpi config);
  let img_processed :=
    ExtractOcr.preprocess_image Image mode convert Contrast_enhance
      filter_SHARPEN filter_MedianFilter point img config in
  let raw_text := run_tesseract img_processed config in
  lang_result ← LanguageDetector.detect_language
                  (LanguageDetector.Str raw_text) None None None;
  let hebrew_segments := ExtractOcr.HEBREW_PATTERN raw_text in
  let greek_segments := ExtractOcr.GREEK_PATTERN raw_text in
  let verse_refs := VERSE_REF_PATTERN raw_text in
  Some {| page := page_num + 1;
          raw_text := raw_text;
          hebrew_segments := hebrew_segments;
          greek_segments := greek_segments;
          hebrew_text := Py.join (lit " ") hebrew_segments;
          greek_text := Py.join (lit " ") greek_segments;
          verse_refs := (λ r, r.1 ++ lit ":" ++ r.2) <$> verse_refs;
          language_detected := LanguageDetector.language lang_result;
          confidence := LanguageDetector.confidence lang_result;
          hebrew_count := Z.of_nat (length hebrew_segments);
          greek_count := Z.of_nat (length greek_segments) |}.

(** The key of a page in the results. *)
Definition page_key (page_num : Z) : text :=
  lit "page-" ++ Py.str_of_Z (page_num + 1).

(** One iteration of the loop of [process_pdf]: an exception of
    [extract_from_page] is caught and leaves the results as they are. *)
Definition process_page (config : ExtractOcr.OCRConfig) (results : Results)
    (page_num : Z) : Results :=
  match extract_from_page page_num config with
  | Some page_result =>
      {| pages :=
           ExtractOcr.dict_set (page_key page_num)
             {| entry_hebrew_segments := hebrew_segments page_result;
                entry_greek_segments := greek_segments page_result;
                entry_hebrew_text := hebrew_text page_result;
                entry_greek_text := greek_text page_result;
                entry_verse_refs := verse_refs page_result |}
             (pages results);
         total_hebrew := total_hebrew results + hebrew_count page_result;
         total_greek := total_greek results + greek_count page_result;
         pages_processed := pages_processed results + 1 |}
  | None => results
  end.

(** [process_pdf] for a document of [total_pages] pages. *)
Definition process_pdf (total_pages start_page num_pages : Z)
    (config : ExtractOcr.OCRConfig) : Results :=
  foldl (process_page config)
        {| pages := []; total_hebrew := 0; total_greek := 0;
           pages_processed := 0 |}
        (LanguageDetector.range start_page
           (Z.min (start_page + num_pages) total_pages)).

End Pages.

End ProcessPdf.

(** ** difflib.SequenceMatcher of the Python standard library

    [SequenceMatcher(None, a, b).ratio()], as [verify_ocr_accuracy.py] calls
    it: no junk predicate, and the automatic purge of popular elements of
    [b] when [b] has 200 elements or more. *)

Module Difflib.

Section Matcher.

Variables a b : text.

(** The positions of an element in [b], increasing. *)
Fixpoint positions (elt : N) (j : nat) (l : text) : list nat :=
  match l with
  | [] => []
  | x :: l' =>
      if x =? elt then j :: positions elt (S j) l'
      else positions elt (S j) l'
  end.

Definition popular (elt : N) : bool :=
  let n := length b in
  (200 <=? n)%nat && (n / 100 + 1 <? length (positions elt 0 b))%nat.

Definition b2j (elt : N) : list nat :=
  if popular elt then [] else positions elt 0 b.

Definition j2len_get (j2len : list (nat * nat)) (j : nat) : nat :=
  match List.find (λ e, (e.1 =? j)%nat) j2len with
  | Some e => e.2
  | None => 0%nat
  end.

(** The inner loop of [find_longest_match] over the positions of
    [a[i]] in [b]. *)
Fixpoint inner (i blo bhi : nat) (j2len : list (nat * nat))
    (js : list nat) (newj2len : list (nat * nat))
    (best : nat * nat * nat) : list (nat * nat) * (nat * nat * nat) :=
  match js with
  | [] => (newj2len, best)
  | j :: js' =>
      if (j <? blo)%nat then inner i blo bhi j2len js' newj2len best
      else if (bhi <=? j)%nat then (newj2len, best)
      else
        let k := S (match j with
                    | O => 0%nat
                    | S j' => j2len_get j2len j'
                    end) in
        let best' := if (best.2 <? k)%nat
                     then ((i + 1 - k)%nat, (j + 1 - k)%nat, k)
                     else best in
        inner i blo bhi j2len js' ((j, k) :: newj2len) best'
  end.

(** The outer loop, over the positions [i] of [a]. *)
Fixpoint outer (is_ : list nat) (blo bhi : nat)
    (j2len : list (nat * nat)) (best : nat * nat * nat)
  : nat * nat * nat :=
  match is_ with
  | [] => best
  | i :: is' =>
      let '(newj2len, best') :=
        inner i blo bhi j2len
              (match a !! i with Some x => b2j x | None => [] end)
              [] best in
      outer is' blo bhi newj2len best'
  end.

(** Extending a match to the left, and to the right, over equal
    elements. *)
Fixpoint extend_left (fuel alo blo : nat) (m : nat * nat * nat)
  : nat * nat * nat :=
  match fuel with
  | O => m
  | S fuel' =>
      let '(besti, bestj, bestsize) := m in
      if (alo <? besti)%nat && (blo <? bestj)%nat
         && bool_decide (is_Some (a !! (besti - 1)%nat)
                         ∧ a !! (besti - 1)%nat = b !! (bestj - 1)%nat)
      then extend_left fuel' alo blo
             ((besti - 1)%nat, (bestj - 1)%nat, S bestsize)
      else m
  end.

Fixpoint extend_right (fuel ahi bhi : nat) (m : nat * nat * nat)
  : nat * nat * nat :=
  match fuel with
  | O => m
  | S fuel' =>
      let '(besti, bestj, bestsize) := m in
      if (besti + bestsize <? ahi)%nat && (bestj + bestsize <? bhi)%nat
         && bool_decide (is_Some (a !! (besti + bestsize)%nat)
                         ∧ a !! (besti + bestsize)%nat
                           = b !! (bestj + bestsize)%nat)
      then extend_right fuel' ahi bhi (besti, bestj, S bestsize)
      else m
  end.

Definition find_longest_match (alo ahi blo bhi : nat) : nat * nat * nat :=
  let best := outer (seq alo (ahi - alo)) blo bhi [] (alo, blo, 0%nat) in
  let best := extend_left (length a) alo blo best in
  extend_right (length a) ahi bhi best.

(** The total size of the blocks [get_matching_blocks] collects. *)
Fixpoint matched (fuel alo ahi blo bhi : nat) : nat :=
  match fuel with
  | O => 0%nat
  | S fuel' =>
      let '(i, j, k) := find_longest_match alo ahi blo bhi in
      match k with
      | O => 0%nat
      | _ =>
          (k
           + (if (alo <? i)%nat && (blo <? j)%nat
              then matched fuel' alo i blo j else 0)
           + (if (i + k <? ahi)%nat && (j + k <? bhi)%nat
              then matched fuel' (i + k) ahi (j + k) bhi else 0))%nat
      end
  end.

Definition matches : nat :=
  matched (S (length a)) 0 (length a) 0 (length b).

(** [ratio()]: [2.0 * matches / length], or [1.0] for two empty
    sequences. *)
Definition ratio : Q :=
  let length := (length a + length b)%nat in
  match length with
  | O => 1%Q
  | _ => Qred (inject_Z (2 * Z.of_nat matches)
               / inject_Z (Z.of_nat length))
  end.

End Matcher.

End Difflib.


(** ** verify_ocr_accuracy.py *)

Module VerifyOcr.

Definition hebrew_class (c : N) : bool :=
  ((0x0590 <=? c) && (c <=? 0x05FF)) || ((0xFB1D <=? c) && (c <=? 0xFB4F)).

Definition greek_class (c : N) : bool :=
  ((0x0370 <=? c) && (c <=? 0x03FF)) || ((0x1F00 <=? c) && (c <=? 0x1FFF)).

Definition HEBREW_PATTERN : text → list text := Re.findall hebrew_class.
Definition GREEK_PATTERN : text → list text := Re.findall greek_class.

(** [re.sub(r'\s+', ' ', text)]: [in_run] tells that the previous code
    point was white space, already replaced. *)
Fixpoint collapse_spaces (in_run : bool) (s : text) : text :=
  match s with
  | [] => []
  | c :: s' =>
      if Py.isspace c then
        if in_run then collapse_spaces true s'
        else 32 :: collapse_spaces true s'
      else c :: collapse_spaces false s'
  end.

Fixpoint lstrip (s : text) : text :=
  match s with
  | [] => []
  | c :: s' => if Py.isspace c then lstrip s' else s
  end.

(** [text.strip()]. *)
Definition strip (s : text) : text := rev (lstrip (rev (lstrip s))).

(** [text.split()]: the maximal runs without white space. *)
Definition split (s : text) : list text :=
  Re.findall (λ c, negb (Py.isspace c)) s.

Definition normalize_text (t : text) : text :=
  let t := Re.delete_class (λ c, (0x0591 <=? c) && (c <=? 0x05C7)) t in
  let t := Re.delete_class (λ c, (0x0300 <=? c) && (c <=? 0x036F)) t in
  let t := collapse_spaces false t in
  strip t.

Definition calculate_similarity (text1 text2 : text) : Q :=
  match text1, text2 with
  | [], _ | _, [] => 0%Q
  | _, _ => Difflib.ratio (normalize_text text1) (normalize_text text2)
  end.

(** [find_verse_in_ocr]: (found, similarity, best_match); [pattern] is the
    [findall] of the compiled pattern it is given. *)
Definition find_verse_in_ocr (ocr_text verified_text : text)
    (pattern : text → list text) : bool * Q * text :=
  let ocr_segments := pattern ocr_text in
  let ocr_combined := Py.join (lit " ") ocr_segments in
  if Py.contains verified_text ocr_combined then
    (true, 1%Q, verified_text)
  else
    match split verified_text with
    | [] => (false, 0%Q, [])
    | first_word :: _ =>
        if Py.contains first_word ocr_combined then
          let similarity := calculate_similarity verified_text ocr_combined in
          (true, similarity, first_word)
        else
          let similarity := calculate_similarity verified_text ocr_combined in
          (negb (Qle_bool similarity 0.5%Q), similarity, [])
    end.

(** The loop of [verify_ocr_accuracy] over the reference verses (the
    first twenty), on the text recognized from the sampled pages: for
    each verse its reference, [found] and [similarity]. *)
Definition check_verses (all_ocr_text : text)
    (verified_data : list (text * text)) (script_pattern : text → list text)
  : list (text * bool * Q) :=
  (λ '(verse_ref, verified_text),
     let '(found, similarity, _) :=
       find_verse_in_ocr all_ocr_text verified_text script_pattern in
     (verse_ref, found, similarity))
  <$> take 20 verified_data.

(** The number of verses [verify_ocr_accuracy] counts as found: those
    with [found] and a similarity above 0.3. *)
Definition verified_verses_found (checked : list (text * bool * Q)) : Z :=
  foldl (λ n r, if r.1.2 && negb (Qle_bool r.2 0.3%Q) then (n + 1)%Z else n)
        0%Z checked.

(** What the loop of [verify_ocr_accuracy] over the sampled pages
    updates. *)
Record PageScan := {
  all_ocr_text : text;
  total_ocr_segments : Z;
  pages_checked : Z
}.

Section Ocr.

(** The imaging library, the renderer of the document and the OCR engine
    (for the language asked); [None] stands for a raised exception. *)
Variable Image : Type.
Variable mode : Image → string.
Variable convert : string → Image → Image.
Variable Contrast_enhance : Image → Q → Image.
Variable filter_SHARPEN : Image → Image.
Variable pdf_page_to_image : Z → Z → option Image.
Variable image_to_string : Image → text → option text.

Definition preprocess_image (img : Image) : Image :=
  let img := if negb (String.eqb (mode img) "L") then convert "L" img
             else img in
  let img := Contrast_enhance img 1.5 in
  let img := filter_SHARPEN img in
  img.

(** [ocr_page]: an error of the engine is caught and gives the empty
    string. *)
Definition ocr_page (img : Image) : text :=
  let img_processed := preprocess_image img in
  let config := lit "--psm 6 --oem 3" in
  match image_to_string img_processed config with
  | Some t => t
  | None => []
  end.

(** One iteration of the loop over the sampled pages: an exception of
    the renderer is caught and leaves the scan as it is. *)
Definition scan_page (script_pattern : text → list text) (scan : PageScan)
    (page_num : Z) : PageScan :=
  match pdf_page_to_image page_num 300 with
  | Some img =>
      let t := ocr_page img in
      let segments := script_pattern t in
      {| all_ocr_text := all_ocr_text scan ++ lit " " ++ t;
         total_ocr_segments :=
           total_ocr_segments scan + Z.of_nat (length segments);
         pages_checked := pages_checked scan + 1 |}
  | None => scan
  end.

Definition scan_pages (script_pattern : text → list text)
    (total_pages start_page sample_pages : Z) : PageScan :=
  foldl (scan_page script_pattern)
        {| all_ocr_text := []; total_ocr_segments := 0; pages_checked := 0 |}
        (LanguageDetector.range start_page
           (Z.min (start_page + sample_pages) total_pages)).

End Ocr.

End VerifyOcr.


(** ** Inputs used in the statements *)

(** The text of the third self-test of [language_detector.py] (Daniel 2:4,
    pointed). *)
Definition daniel_2_4 : text :=
  [0x05DE; 0x05B7; 0x05DC; 0x05B0; 0x05DB; 0x05B8; 0x05BC; 0x05D0; 0x0020;
   0x05DC; 0x05B0; 0x05E2; 0x05B8; 0x05DC; 0x05B0; 0x05DE; 0x05B4; 0x05D9;
   0x05DF; 0x0020; 0x05D7; 0x05B1; 0x05D9; 0x05B4; 0x05D9].

(** The first word of Genesis, unpointed (the Hebrew name of the book), and
    pointed as in KNOWN_HEBREW of [extract_scriptures_ocr.py]. *)
Definition bereshit : text :=
  [0x05D1; 0x05E8; 0x05D0; 0x05E9; 0x05D9; 0x05EA].

Definition bereshit_pointed : text :=
  [0x05D1; 0x05B0; 0x05BC; 0x05E8; 0x05B5; 0x05D0; 0x05E9; 0x05B4; 0x05C1;
   0x05D9; 0x05EA].

(** "bara" (created) and "or" (light), unpointed. *)
Definition bara : text := [0x05D1; 0x05E8; 0x05D0].
Definition or_ : text := [0x05D0; 0x05D5; 0x05E8].

(** "or", pointed. *)
Definition or_pointed : text := [0x05D0; 0x05D5; 0x05B9; 0x05E8].

(** "logos", in Greek letters. *)
Definition logos : text := [0x03BB; 0x03CC; 0x03B3; 0x03BF; 0x03C2].

(** ** The rules of the specification, in its words *)

Module Spec.

Import LanguageDetector.

(** A (chapter, verse) falls inside a chapter range: a chapter strictly
    between the two ends counts; the first chapter counts from its first
    verse on; the last chapter counts up to its last verse. *)
Definition in_range (r : Z * Z * Z * Z) (chapter verse : Z) : Prop :=
  let '(ch_start, v_start, ch_end, v_end) := r in
  (ch_start < chapter < ch_end
   ∨ (chapter = ch_start ∧ v_start ≤ verse)
   ∨ (chapter = ch_end ∧ verse ≤ v_end))%Z.

(** A chapter range whose first chapter is not after its last. *)
Definition well_formed (r : Z * Z * Z * Z) : Prop :=
  let '(ch_start, _, ch_end, _) := r in (ch_start ≤ ch_end)%Z.

(** A (chapter, verse) of a book is a known Aramaic passage. *)
Definition known (book : text) (chapter verse : Z) : Prop :=
  ∃ info, ARAMAIC_PASSAGES !! normalize_book book = Some info
          ∧ ((chapter, verse) ∈ verses info
             ∨ ∃ r, r ∈ chapters info ∧ in_range r chapter verse).

(** The first three rules of the decision policy, each with the
    condition that the rules before it did not fire. *)
Definition known_rule (t : text) (book : option text)
    (chapter verse : option Z) : bool :=
  known_passage book chapter verse && (0 <? len (HEBREW_PATTERN t))%Z.

Definition imperial_rule (t : text) (book : option text)
    (chapter verse : option Z) : bool :=
  negb (known_rule t book chapter verse)
  && (0 <? len (IMPERIAL_ARAMAIC_PATTERN t))%Z.

Definition vocabulary_rule (t : text) (book : option text)
    (chapter verse : option Z) : bool :=
  negb (known_rule t book chapter verse)
  && negb (0 <? len (IMPERIAL_ARAMAIC_PATTERN t))%Z
  && match detect_aramaic_vocabulary t with
     | Some (has_aramaic_vocab, _, vocab_confidence) =>
         has_aramaic_vocab && (0 <? len (HEBREW_PATTERN t))%Z
         && negb (Qle_bool vocab_confidence 0.5%Q)
     | None => false
     end.

(** A line of the verse locator made of Hebrew-script words separated by
    single spaces. *)
Definition hebrew_word (w : text) : Prop :=
  w ≠ [] ∧ Forall (λ c, ExtractBhs.hebrew_class c = true) w.

Definition hebrew_line (line : text) : Prop :=
  ∃ ws, ws ≠ [] ∧ Forall hebrew_word ws ∧ line = Py.join (lit " ") ws.

(** No Hebrew name of [book_patterns] occurs in the line. *)
Definition no_book_name (line : text) : Prop :=
  Forall (λ p, Py.contains p.1.2 line = false) ExtractBhs.book_patterns.

(** The entry of a verse after some Hebrew text is added to it. *)
Definition appended (old : option text) (hebrew_text : text) : text :=
  match old with
  | None => hebrew_text
  | Some old => old ++ lit " " ++ hebrew_text
  end.

End Spec.

(** The preprocessing chain in the words of the specification: five steps
    in a fixed order, each with the condition under which it is applied. *)

Module ChainSpec.

Import ExtractOcr.

Section Chain.

Variable Image : Type.
Variable mode : Image → string.
Variable convert : string → Image → Image.
Variable Contrast_enhance : Image → Q → Image.
Variable filter_SHARPEN : Image → Image.
Variable filter_MedianFilter : Z → Image → Image.
Variable point : (Z → Z) → string → Image → Image.

Definition grayscale : Image → Image := convert "L".

Definition contrast (factor : Q) : Image → Image :=
  λ img, Contrast_enhance img factor.

Definition binarize : Image → Image :=
  λ img, convert "L" (point binarize_level "1" img).

Definition chain (img : Image) (config : OCRConfig)
  : list (bool * (Image → Image)) :=
  [ (negb (String.eqb (mode img) "L"), grayscale);
    (negb (Qeq_bool (enhance_contrast config) 1),
     contrast (enhance_contrast config));
    (sharpen config, filter_SHARPEN);
    (denoise config, filter_MedianFilter 3);
    (threshold config, binarize) ].

(** The steps of a chain that are enabled, in its order. *)
Definition enabled (steps : list (bool * (Image → Image)))
  : list (Image → Image) :=
  snd <$> filter (λ s, s.1 = true) steps.

(** Applying steps one after the other. *)
Definition apply_steps (steps : list (Image → Image)) (img : Image) : Image :=
  foldl (λ im f, f im) img steps.

End Chain.

(** A small imaging library to run the chain on: an image is its mode and
    its samples. *)
Definition toy_image : Type := string * list Z.

Definition toy_convert (m : string) (img : toy_image) : toy_image :=
  (m, img.2).

Definition toy_point (f : Z → Z) (m : string) (img : toy_image) : toy_image :=
  (m, f <$> img.2).

Definition toy_contrast (img : toy_image) (factor : Q) : toy_image :=
  (img.1, (λ x, x * Qnum factor / Z.pos (Qden factor))%Z <$> img.2).

Definition toy_filter (img : toy_image) : toy_image := (img.1, rev img.2).

(** A configuration with every optional step off. *)
Definition plain_config : OCRConfig :=
  {| dpi := 300; enhance_contrast := 1; sharpen := false; denoise := false;
     threshold := false; tesseract_psm := 6; tesseract_oem := 3 |}.

(** A recognizer that reads two Hebrew words with contrast 2.0 and with
    page segmentation mode 3, and one word otherwise. *)
Definition toy_recognize (config : OCRConfig) : text :=
  if Qeq_bool (enhance_contrast config) 2 || (tesseract_psm config =? 3)%Z
  then bara ++ lit " " ++ or_
  else or_.

End ChainSpec.

(** What the verse locator keeps true of its output. *)

Module LocatorSpec.

Import ExtractBhs.

(** The book ids the locator can be in. *)
Definition book_ids : list text := (λ p, p.2) <$> book_patterns.

(** An entry of the output: its key is that of a verse from 1 on of one of
    the books, its text is not empty and is made of Hebrew-script code
    points and spaces. *)
Definition entry_ok (key value : text) : Prop :=
  (∃ book chapter verse,
     key = verse_key book chapter verse ∧ book ∈ book_ids ∧ 0 < verse)
  ∧ value ≠ []
  ∧ Forall (λ c, hebrew_class c = true ∨ c = 32) value.


End LocatorSpec.

(** Totals over the pages of the results, and a small document to run
    [process_pdf] on. *)

Module PagesSpec.

Import ProcessPdf.

(** The number of Hebrew (Greek) segments kept in the pages. *)
Definition hebrew_total (pages : list (text * PageEntry)) : Z :=
  foldr (λ p acc, Z.of_nat (length (entry_hebrew_segments p.2)) + acc)%Z
        0%Z pages.

Definition greek_total (pages : list (text * PageEntry)) : Z :=
  foldr (λ p acc, Z.of_nat (length (entry_greek_segments p.2)) + acc)%Z
        0%Z pages.

(** A document of three pages that render, and an OCR engine that always
    raises. *)
Definition toy_render (page_num dpi : Z) : option ChainSpec.toy_image :=
  if ((0 <=? page_num) && (page_num <? 3))%Z
  then Some ("RGB"%string, [page_num; dpi])
  else None.


(** An OCR engine that reads the same two Hebrew words on every page. *)
Definition toy_engine (img : ChainSpec.toy_image) (config : text)
  : option text := Some (lit "1:1 " ++ bara ++ lit " " ++ or_).

(** The default configuration with the median filter off. *)
Definition verifier_config : ExtractOcr.OCRConfig :=
  {| ExtractOcr.dpi := 300; ExtractOcr.enhance_contrast := 1.5;
     ExtractOcr.sharpen := true; ExtractOcr.denoise := false;
     ExtractOcr.threshold := false; ExtractOcr.tesseract_psm := 6;
     ExtractOcr.tesseract_oem := 3 |}.

End PagesSpec.

(** * Properties *)

(** ** Regular expressions and strings *)

Module ReFacts.

Lemma contains_empty hay : Py.contains [] hay = true.
Proof. by destruct hay. Qed.

Lemma contains_in_empty needle : needle ≠ [] → Py.contains needle [] = false.
Proof. by destruct needle. Qed.

Lemma contains_head x p s : Py.contains (x :: p) s = true → x ∈ s.
Proof.
  induction s as [|c s IH]; [done|]. simpl.
  destruct (N.eqb_spec x c) as [->|Hne]; simpl.
  - intros _. by left.
  - intros H. right. apply IH.
    destruct (Py.contains (x :: p) s) eqn:E; [done|].
    by destruct (Py.startswith p s).
Qed.

Lemma scan_runs_nonempty cls cur s :
  Forall (λ r, r ≠ []) (Re.scan_runs cls cur s).
Proof.
  revert cur. induction s as [|c s IH]; intros cur; simpl.
  - destruct cur; by repeat constructor.
  - destruct (cls c); [apply IH|].
    apply Forall_app. split; [|apply IH]. destruct cur; by repeat constructor.
Qed.

Lemma scan_runs_word cls cur w rest :
  Forall (λ c, cls c = true) w →
  Re.scan_runs cls cur (w ++ rest) = Re.scan_runs cls (cur ++ w) rest.
Proof.
  intros Hw. revert cur. induction Hw as [|c w Hc Hw IH]; intros cur.
  - by rewrite app_nil_r.
  - simpl. rewrite Hc, IH. by rewrite <- app_assoc.
Qed.

Lemma findall_join cls ws :
  cls 32 = false →
  Forall (λ w, w ≠ [] ∧ Forall (λ c, cls c = true) w) ws →
  Re.findall cls (Py.join (lit " ") ws) = ws.
Proof.
  intros Hsp Hws. unfold Re.findall.
  induction Hws as [|w ws [Hne Hw] Hws IH]; [done|].
  destruct ws as [|w' ws].
  - simpl. rewrite <- (app_nil_r w) at 1. rewrite scan_runs_word by done.
    simpl. by destruct w.
  - change (Py.join (lit " ") (w :: w' :: ws))
      with (w ++ 32 :: Py.join (lit " ") (w' :: ws)).
    rewrite scan_runs_word by done. cbn [Re.scan_runs app].
    rewrite Hsp, IH. by destruct w.
Qed.

Lemma join_chars (P : N → Prop) ws :
  P 32 → Forall (Forall P) ws → Forall P (Py.join (lit " ") ws).
Proof.
  intros Hsp Hws. induction Hws as [|w ws Hw Hws IH]; [constructor|].
  destruct ws as [|w' ws]; [done|].
  change (Py.join (lit " ") (w :: w' :: ws))
    with (w ++ 32 :: Py.join (lit " ") (w' :: ws)).
  apply Forall_app. split; [done|]. by constructor.
Qed.

End ReFacts.

(** ** language_detector.py *)

Module DetectorFacts.

Import LanguageDetector Spec.

Lemma in_chapter_ranges_iff rs chapter verse :
  Forall well_formed rs →
  in_chapter_ranges rs chapter verse = true
  ↔ ∃ r, r ∈ rs ∧ in_range r chapter verse.
Proof.
  induction rs as [|[[[cs vs] ce] ve] rs IH]; intros Hwf; simpl.
  - split; [done | intros (r & Hr & _); by apply elem_of_nil in Hr].
  - apply Forall_cons in Hwf as [Hw Hwf]. specialize (IH Hwf).
    simpl in Hw. rewrite Z.geb_leb.
    assert (Hrest :
      ¬ in_range (cs, vs, ce, ve) chapter verse →
      (in_chapter_ranges rs chapter verse = true
       ↔ ∃ r, r ∈ (cs, vs, ce, ve) :: rs ∧ in_range r chapter verse)).
    { intros Hn. rewrite IH. split.
      - intros (r & Hr & Hin). exists r. split; [by right | done].
      - intros (r & Hr & Hin). apply elem_of_cons in Hr as [->|Hr];
          [done | by exists r]. }
    assert (Hhit :
      in_range (cs, vs, ce, ve) chapter verse →
      (true = true
       ↔ ∃ r, r ∈ (cs, vs, ce, ve) :: rs ∧ in_range r chapter verse)).
    { intros Hin. split; [|done]. intros _. eexists. split; [by left|done]. }
    destruct (Z.leb_spec cs chapter), (Z.leb_spec chapter ce),
      (Z.eqb_spec chapter cs), (Z.leb_spec vs verse),
      (Z.eqb_spec chapter ce), (Z.leb_spec verse ve),
      (Z.ltb_spec cs chapter), (Z.ltb_spec chapter ce); simpl;
      first [ apply Hhit; simpl; lia | apply Hrest; simpl; lia ].
Qed.

Lemma table_well_formed key info :
  ARAMAIC_PASSAGES !! key = Some info → Forall well_formed (chapters info).
Proof.
  unfold ARAMAIC_PASSAGES. intros H.
  repeat (rewrite lookup_insert in H; case_decide;
          [injection H as <-; simpl; repeat constructor; simpl; lia |]).
  by rewrite lookup_empty in H.
Qed.

Lemma is_aramaic_passage_iff book chapter verse :
  is_aramaic_passage book chapter verse = true ↔ known book chapter verse.
Proof.
  unfold is_aramaic_passage, known.
  destruct (ARAMAIC_PASSAGES !! normalize_book book) as [info|] eqn:E.
  - pose proof (table_well_formed _ _ E) as Hwf.
    case_bool_decide as Hv.
    + split; [|done]. intros _. exists info. auto.
    + rewrite (in_chapter_ranges_iff _ _ _ Hwf). split.
      * intros Hr. exists info. auto.
      * intros (info' & [= <-] & [Hin|Hr]); [done | done].
  - split; [done | by intros (info & [=] & _)].
Qed.

(** C2.  For every book and every chapter and verse from 1 on, the hints
    are a known Aramaic passage exactly when (chapter, verse) is in the
    verse set of the book's entry or falls inside one of its chapter
    ranges; Ezra's section starts at 4:8 and not at 4:7, and Genesis
    31:47 is known while 31:46 is not. *)
Theorem known_passage_exactly :
  (∀ book chapter verse, (1 ≤ chapter)%Z → (1 ≤ verse)%Z →
     (known_passage (Some book) (Some chapter) (Some verse) = true
      ↔ known book chapter verse)
     ∧ known_passage (Some book) (Some chapter) (Some verse)
       = is_aramaic_passage book chapter verse)
  ∧ is_aramaic_passage (lit "ezra") 4 8 = true
  ∧ is_aramaic_passage (lit "ezra") 4 7 = false
  ∧ is_aramaic_passage (lit "genesis") 31 47 = true
  ∧ is_aramaic_passage (lit "genesis") 31 46 = false.
Proof.
  split; [|by vm_compute].
  intros book chapter verse Hc Hv.
  assert (known_passage (Some book) (Some chapter) (Some verse)
          = is_aramaic_passage book chapter verse) as ->.
  { unfold known_passage.
    rewrite (bool_decide_eq_true_2 (chapter ≠ 0%Z)) by lia.
    rewrite (bool_decide_eq_true_2 (verse ≠ 0%Z)) by lia.
    case_bool_decide as Hb; simpl; [done|].
    subst book. reflexivity. }
  split; [apply is_aramaic_passage_iff | done].
Qed.

Lemma known_passage_exactly_witness :
  known_passage (Some (lit "ezra")) (Some 4%Z) (Some 8%Z) = true
  ↔ known (lit "ezra") 4 8.
Proof.
  apply (proj1 known_passage_exactly (lit "ezra") 4%Z 8%Z); lia.
Defined.

(** *** The decision policy *)

Lemma truediv_guarded a b :
  ∃ q, (if (0 <? b)%Z then Py.truediv a b else Some 1%Q) = Some q.
Proof.
  destruct (Z.ltb_spec 0 b); [|by eexists].
  unfold Py.truediv. destruct (Z.eqb_spec b 0); [lia | by eexists].
Qed.

Lemma detect_aramaic_vocabulary_total t :
  ∃ has words conf, detect_aramaic_vocabulary t = Some (has, words, conf).
Proof.
  unfold detect_aramaic_vocabulary. destruct t; [by repeat eexists|].
  destruct (filter _ _); [by repeat eexists|].
  unfold Py.truediv. cbn [Z.eqb mbind option_bind].
  do 3 eexists. reflexivity.
Qed.

(** What [detect_language] returns on a non-empty string: the counts,
    and the language, matches and [aramaic_count] of the first rule of
    the chain that fires. *)
Lemma detect_language_str t book chapter verse :
  t ≠ [] →
  let h := len (HEBREW_PATTERN t) in
  let g := len (GREEK_PATTERN t) in
  let i := len (IMPERIAL_ARAMAIC_PATTERN t) in
  ∃ d, detect_language (Str t) book chapter verse = Some d
       ∧ hebrew_count d = h ∧ greek_count d = g
       ∧ is_known_aramaic_passage d = known_passage book chapter verse
       ∧ (known_rule t book chapter verse = true →
            confidence d = 0.95%Q)
       ∧ (language d, matches d, aramaic_count d)
         = if known_rule t book chapter verse
           then (aramaic, HEBREW_PATTERN t, h)
           else if imperial_rule t book chapter verse
           then (aramaic, HEBREW_PATTERN t ++ IMPERIAL_ARAMAIC_PATTERN t,
                 (h + i)%Z)
           else if vocabulary_rule t book chapter verse
           then (aramaic, HEBREW_PATTERN t, h)
           else if (0 <? h)%Z then (hebrew, HEBREW_PATTERN t, 0%Z)
           else if (0 <? g)%Z then (greek, GREEK_PATTERN t, 0%Z)
           else (unknown, [], 0%Z).
Proof.
  intros Ht h g i. destruct t as [|c t]; [done|].
  unfold detect_language, vocabulary_rule, imperial_rule, known_rule.
  destruct (detect_aramaic_vocabulary_total (c :: t))
    as (has & words & conf & ->).
  fold h g i. cbn [mbind option_bind].
  destruct (known_passage book chapter verse && (0 <? h)%Z) eqn:E1;
    cbn [negb andb].
  { eexists. split; [done|]. by cbn. }
  assert ((len (HEBREW_PATTERN (c :: t) ++ IMPERIAL_ARAMAIC_PATTERN (c :: t)))
          = (h + i)%Z) as Hlen.
  { unfold h, i, len. rewrite length_app. lia. }
  destruct (0 <? i)%Z eqn:E2; cbn [negb andb].
  { rewrite Hlen.
    destruct (truediv_guarded (h + i) (h + g + i)) as [q ->].
    eexists. split; [done|]. by cbn. }
  destruct (has && (0 <? h)%Z && negb (Qle_bool conf 0.5)) eqn:E3.
  { eexists. split; [done|]. by cbn. }
  destruct (0 <? h)%Z eqn:E4.
  { destruct (truediv_guarded h (h + g)) as [q ->].
    eexists. split; [done|]. by cbn. }
  destruct (0 <? g)%Z eqn:E5.
  { destruct (truediv_guarded g (h + g)) as [q ->].
    eexists. split; [done|]. by cbn. }
  eexists. split; [done|]. by cbn.
Qed.

Lemma hebrew_runs_nonempty t : HEBREW_PATTERN t ≠ [] → t ≠ [].
Proof. by intros H ->. Qed.

Lemma len_positive l : l ≠ [] → (0 <? len l)%Z = true.
Proof.
  destruct l; [done|]. intros _. apply Z.ltb_lt. unfold len.
  cbn [length]. lia.
Qed.

(** C1.  A text with at least one Hebrew-script run, with hints that
    are a known Aramaic passage, is classified as Aramaic, with the
    Hebrew-script runs as matches and confidence 0.95; so is the text of
    Daniel 2:4 with its reference. *)
Theorem known_passage_is_aramaic :
  (∀ t book chapter verse,
     HEBREW_PATTERN t ≠ [] →
     known_passage book chapter verse = true →
     ∃ d, detect_language (Str t) book chapter verse = Some d
          ∧ language d = aramaic
          ∧ matches d = HEBREW_PATTERN t
          ∧ confidence d = 0.95%Q
          ∧ is_known_aramaic_passage d = true)
  ∧ ∃ d, detect_language (Str daniel_2_4) (Some (lit "daniel"))
                         (Some 2%Z) (Some 4%Z) = Some d
         ∧ is_known_aramaic_passage d = true
         ∧ language d = aramaic
         ∧ confidence d = 0.95%Q.
Proof.
  split; [|eexists; split; [by vm_compute | done]].
  intros t book chapter verse Hh Hk.
  destruct (detect_language_str t book chapter verse
              (hebrew_runs_nonempty _ Hh))
    as (d & Hd & _ & _ & Hkn & Hc & Hr).
  assert (known_rule t book chapter verse = true) as Hrule.
  { unfold known_rule. by rewrite Hk, len_positive. }
  rewrite Hrule in Hr. injection Hr as Hl Hm _.
  exists d. rewrite Hkn. split_and!; auto.
Qed.

Lemma known_passage_is_aramaic_witness :
  ∃ d, detect_language (Str (lit "x" ++ daniel_2_4)) (Some (lit "Ezra"))
                       (Some 7%Z) (Some 12%Z) = Some d
       ∧ language d = aramaic
       ∧ matches d = HEBREW_PATTERN (lit "x" ++ daniel_2_4)
       ∧ confidence d = 0.95%Q
       ∧ is_known_aramaic_passage d = true.
Proof.
  apply (proj1 known_passage_is_aramaic); by vm_compute.
Defined.

(** C7.  On the empty string, and on an argument that is not a string,
    [detect_language] returns the unknown result: language unknown,
    confidence 0.0, no matches and the three counts zero; and it returns
    a result (raises nothing) on every input. *)
Theorem degenerate_input_is_unknown :
  (∀ book chapter verse,
     detect_language (Str []) book chapter verse = Some unknown_detection)
  ∧ (∀ truthy book chapter verse,
       detect_language (NotStr truthy) book chapter verse
       = Some unknown_detection)
  ∧ (language unknown_detection = unknown
     ∧ confidence unknown_detection = 0%Q
     ∧ matches unknown_detection = []
     ∧ hebrew_count unknown_detection = 0%Z
     ∧ greek_count unknown_detection = 0%Z
     ∧ aramaic_count unknown_detection = 0%Z)
  ∧ ∀ t book chapter verse,
      ∃ d, detect_language t book chapter verse = Some d.
Proof.
  split; [done|]. split; [done|]. split; [done|].
  intros [[|c t]|truthy] book chapter verse; [by eexists| |by eexists].
  destruct (detect_language_str (c :: t) book chapter verse)
    as (d & Hd & _); [done | by exists d].
Qed.

(** C10.  [aramaic_count] is not a count of Imperial-Aramaic runs of its
    own: it is 0 whenever the language returned is not Aramaic (a known
    passage included), the number of Hebrew-script runs when the
    known-passage rule or the vocabulary rule fires, and the number of
    Hebrew-script runs plus Imperial-Aramaic runs only when the
    Imperial-Aramaic rule fires. *)
Theorem aramaic_count_by_rule t book chapter verse :
  ∃ d, detect_language (Str t) book chapter verse = Some d
       ∧ (language d ≠ aramaic → aramaic_count d = 0%Z)
       ∧ (known_rule t book chapter verse = true →
            aramaic_count d = hebrew_count d
            ∧ hebrew_count d = len (HEBREW_PATTERN t))
       ∧ (vocabulary_rule t book chapter verse = true →
            aramaic_count d = hebrew_count d
            ∧ hebrew_count d = len (HEBREW_PATTERN t))
       ∧ (imperial_rule t book chapter verse = true →
            aramaic_count d
            = (len (HEBREW_PATTERN t)
               + len (IMPERIAL_ARAMAIC_PATTERN t))%Z)
       ∧ (language d = aramaic →
            known_rule t book chapter verse = true
            ∨ imperial_rule t book chapter verse = true
            ∨ vocabulary_rule t book chapter verse = true).
Proof.
  destruct t as [|c t].
  { exists unknown_detection. split; [done|].
    repeat split; try done. }
  destruct (detect_language_str (c :: t) book chapter verse)
    as (d & Hd & Hh & _ & _ & _ & Hr); [done|].
  exists d. split; [done|]. rewrite Hh.
  assert (∀ b1 b2, negb b1 && b2 = true → b1 = false) as Hneg
    by (by intros [] []).
  destruct (known_rule (c :: t) book chapter verse) eqn:E1.
  { injection Hr as Hl _ Ha. rewrite Hl, Ha.
    unfold imperial_rule, vocabulary_rule. rewrite E1. naive_solver. }
  destruct (imperial_rule (c :: t) book chapter verse) eqn:E2.
  { injection Hr as Hl _ Ha. rewrite Hl, Ha.
    unfold vocabulary_rule. rewrite E1.
    unfold imperial_rule in E2. rewrite E1 in E2. simpl in E2.
    rewrite E2. naive_solver. }
  destruct (vocabulary_rule (c :: t) book chapter verse) eqn:E3.
  { injection Hr as Hl _ Ha. rewrite Hl, Ha. naive_solver. }
  destruct (0 <? len (HEBREW_PATTERN (c :: t)))%Z;
    [|destruct (0 <? len (GREEK_PATTERN (c :: t)))%Z];
    injection Hr as Hl _ Ha; rewrite Hl, Ha; naive_solver.
Qed.

Lemma aramaic_count_by_rule_witness :
  ∃ d, detect_language (Str logos) (Some (lit "daniel"))
                       (Some 3%Z) (Some 1%Z) = Some d
       ∧ language d = greek
       ∧ is_known_aramaic_passage d = true
       ∧ aramaic_count d = 0%Z.
Proof.
  destruct (aramaic_count_by_rule logos (Some (lit "daniel"))
              (Some 3%Z) (Some 1%Z)) as (d & Hd & H0 & _).
  exists d. split; [exact Hd|].
  assert (Some d = Some {| language := greek; confidence := 1;
              matches := [logos]; hebrew_count := 0; greek_count := 1;
              aramaic_count := 0; aramaic_words := [];
              is_known_aramaic_passage := true |}) as [= ->]
    by (rewrite <- Hd; by vm_compute).
  split; [done|]. split; [done | by apply H0].
Defined.

End DetectorFacts.


(** ** extract_hebrew_from_bhs.py *)

Module LocatorFacts.

Import ExtractBhs Spec.

Lemma step_eq st line :
  step st line
  = let '(book, chapter, verse) := locate st line in
    {| current_book := book; current_chapter := chapter;
       current_verse := verse;
       verses := record_hebrew book chapter verse line (verses st) |}.
Proof. reflexivity. Qed.

Lemma locate_eq st line :
  locate st line
  = match verse_pattern_search line, find_book book_patterns line with
    | Some (g1, g2), Some book_id =>
        (book_id, Py.int_of_digits g1, Py.int_of_digits g2)
    | Some (g1, g2), None =>
        (current_book st, Py.int_of_digits g1, Py.int_of_digits g2)
    | None, Some book_id => (book_id, 1, 0)
    | None, None => (current_book st, current_chapter st, current_verse st)
    end.
Proof.
  unfold locate.
  destruct (find_book book_patterns line);
    by destruct (verse_pattern_search line) as [[g1 g2]|].
Qed.

(** C5, as amended.  A line changes (current_chapter, current_verse) only
    when it holds a book header or a chapter:verse reference: a reference
    sets the pair to the two numbers read, whatever the pair was; a header
    without a reference resets it to (1, 0); any other line leaves it as it
    was. *)
Theorem chapter_verse_transition st line :
  (current_chapter (step st line), current_verse (step st line))
  = match verse_pattern_search line, find_book book_patterns line with
    | Some (g1, g2), _ => (Py.int_of_digits g1, Py.int_of_digits g2)
    | None, Some _ => (1, 0)
    | None, None => (current_chapter st, current_verse st)
    end.
Proof.
  rewrite step_eq, locate_eq.
  destruct (verse_pattern_search line) as [[g1 g2]|];
    by destruct (find_book book_patterns line).
Qed.

(** C5, as stated, fails: after the line "3:5" the line "1:2" takes both the
    chapter and the verse down, and so does a book header. *)
Lemma chapter_verse_can_decrease :
  (current_chapter (scan initial [lit "3:5"]),
   current_verse (scan initial [lit "3:5"])) = (3, 5)
  ∧ (current_chapter (scan initial [lit "3:5"; lit "1:2"]),
     current_verse (scan initial [lit "3:5"; lit "1:2"])) = (1, 2)
  ∧ (current_chapter (scan initial [lit "3:5"; lit "Exodus"]),
     current_verse (scan initial [lit "3:5"; lit "Exodus"])) = (1, 0)
  ∧ current_chapter (step (scan initial [lit "3:5"]) (lit "1:2"))
    < current_chapter (scan initial [lit "3:5"])
  ∧ current_verse (step (scan initial [lit "3:5"]) (lit "1:2"))
    < current_verse (scan initial [lit "3:5"]).
Proof. by vm_compute. Qed.

(** *** Lines of Hebrew words *)

Lemma hebrew_line_chars line :
  hebrew_line line → Forall (λ c, hebrew_class c = true ∨ c = 32) line.
Proof.
  intros (ws & _ & Hws & ->). apply ReFacts.join_chars; [by right|].
  eapply Forall_impl; [exact Hws|]. intros w [_ Hw].
  eapply Forall_impl; [exact Hw|]. by left.
Qed.

Lemma hebrew_line_runs line :
  hebrew_line line →
  HEBREW_PATTERN line ≠ [] ∧ Py.join (lit " ") (HEBREW_PATTERN line) = line.
Proof.
  intros (ws & Hne & Hws & ->). unfold HEBREW_PATTERN.
  by rewrite ReFacts.findall_join.
Qed.

Lemma hebrew_class_range c : hebrew_class c = true → 0x0590 ≤ c ≤ 0x05FF.
Proof.
  unfold hebrew_class.
  rewrite !orb_true_iff, !andb_true_iff, !N.leb_le, N.eqb_eq. lia.
Qed.

Lemma digit_in_none zeros c :
  Forall (λ z, c < z ∨ z + 10 ≤ c) zeros → Py.digit_in zeros c = None.
Proof.
  induction 1 as [|z zeros Hz _ IH]; [done|]. simpl.
  destruct (N.leb_spec z c), (N.ltb_spec c (z + 10)); simpl; [lia | done..].
Qed.

Lemma hebrew_not_digit c :
  hebrew_class c = true ∨ c = 32 → Py.isdigit c = false.
Proof.
  intros Hc. unfold Py.isdigit, Py.digit_value.
  rewrite digit_in_none; [done|].
  assert (c = 32 ∨ 0x0590 ≤ c ≤ 0x05FF) as Hr.
  { destruct Hc as [Hc%hebrew_class_range|Hc]; [by right | by left]. }
  unfold Py.decimal_zeros.
  repeat (apply Forall_cons_2; [lia|]). apply Forall_nil_2.
Qed.

Lemma no_digit_no_reference line :
  Forall (λ c, Py.isdigit c = false) line → verse_pattern_search line = None.
Proof.
  induction 1 as [|c line Hc _ IH]; [done|].
  simpl. unfold verse_pattern_match. simpl. by rewrite Hc.
Qed.

Lemma hebrew_line_no_reference line :
  hebrew_line line → verse_pattern_search line = None.
Proof.
  intros H%hebrew_line_chars. apply no_digit_no_reference.
  eapply Forall_impl; [exact H|]. apply hebrew_not_digit.
Qed.

Lemma hebrew_ignorecase line :
  Forall (λ c, hebrew_class c = true ∨ c = 32) line →
  ignorecase <$> line = line.
Proof.
  induction 1 as [|c line Hc _ IH]; [done|]. rewrite fmap_cons, IH. f_equal.
  assert (c = 32 ∨ 0x0590 ≤ c ≤ 0x05FF) as Hr.
  { destruct Hc as [Hc%hebrew_class_range|Hc]; [by right | by left]. }
  unfold ignorecase.
  repeat match goal with
         | |- context [N.leb ?a ?b] => destruct (N.leb_spec a b)
         | |- context [N.eqb ?a ?b] => destruct (N.eqb_spec a b)
         end; simpl; lia.
Qed.

Lemma hebrew_line_no_book line :
  hebrew_line line → no_book_name line →
  find_book book_patterns line = None.
Proof.
  intros Hl%hebrew_line_chars Hn.
  assert (∀ p, match p with
               | x :: _ => (x <? 0x80) && negb (x =? 32)
               | [] => false
               end = true →
               Py.contains p line = false) as Hascii.
  { intros [|x p] Hx; [done|].
    destruct (Py.contains (x :: p) line) eqn:E; [|done].
    apply ReFacts.contains_head in E.
    rewrite Forall_forall in Hl. destruct (Hl _ E) as [Hc| ->]; [|done].
    exfalso. apply hebrew_class_range in Hc.
    apply andb_true_iff in Hx as [Hx _]. apply N.ltb_lt in Hx. lia. }
  unfold no_book_name, book_patterns in Hn.
  repeat match goal with
         | H : Forall _ (_ :: _) |- _ => apply Forall_cons in H as [? H]
         end.
  unfold book_patterns, find_book, book_pattern_search.
  rewrite hebrew_ignorecase by done. simpl in *.
  repeat match goal with
         | H : Py.contains _ line = false |- _ => rewrite H
         end.
  by rewrite !Hascii by reflexivity.
Qed.

(** *** The steps of the scan *)

Lemma step_hebrew_line st line :
  hebrew_line line → no_book_name line →
  step st line
  = {| current_book := current_book st;
       current_chapter := current_chapter st;
       current_verse := current_verse st;
       verses := record_hebrew (current_book st) (current_chapter st)
                   (current_verse st) line (verses st) |}.
Proof.
  intros Hl Hn. rewrite step_eq, locate_eq.
  by rewrite hebrew_line_no_reference, hebrew_line_no_book.
Qed.

Lemma step_reference st line g1 g2 :
  find_book book_patterns line = None →
  verse_pattern_search line = Some (g1, g2) →
  HEBREW_PATTERN line = [] →
  step st line
  = {| current_book := current_book st;
       current_chapter := Py.int_of_digits g1;
       current_verse := Py.int_of_digits g2;
       verses := verses st |}.
Proof.
  intros Hb Hv Hh. rewrite step_eq, locate_eq, Hb, Hv.
  unfold record_hebrew. by rewrite Hh.
Qed.

Lemma record_hebrew_line book chapter verse line vs :
  hebrew_line line → 0 < verse →
  record_hebrew book chapter verse line vs
  = <[verse_key book chapter verse
      := appended (vs !! verse_key book chapter verse) line]> vs.
Proof.
  intros [Hne Hj]%hebrew_line_runs Hv. unfold record_hebrew.
  rewrite bool_decide_eq_true_2 by done.
  apply N.ltb_lt in Hv. rewrite Hv, Hj. simpl.
  by destruct (vs !! verse_key book chapter verse).
Qed.

(** C6, as amended.  After the transitions of a line, when the line has
    a Hebrew-script run and current_verse is positive, the space-joined runs
    are added to the entry of the key of the current book, chapter and
    verse (a new entry, or the old text, a space and the runs) and no other
    entry changes; a line without Hebrew script or with current_verse 0
    changes no entry.  For the lines "Genesis", "1:1", A, "1:2", B with A
    and B lines of Hebrew-script words separated by single spaces in which
    no Hebrew book name of the patterns occurs, the output is exactly
    genesis-1-1 ↦ A and genesis-1-2 ↦ B. *)
Theorem hebrew_goes_to_current_verse :
  (∀ st line,
     let st' := step st line in
     let key := verse_key (current_book st') (current_chapter st')
                          (current_verse st') in
     let hebrew_text := Py.join (lit " ") (HEBREW_PATTERN line) in
     (HEBREW_PATTERN line ≠ [] → 0 < current_verse st' →
        verses st'
        = <[key := appended (verses st !! key) hebrew_text]> (verses st))
     ∧ (HEBREW_PATTERN line = [] ∨ current_verse st' = 0 →
          verses st' = verses st))
  ∧ ∀ A B,
      hebrew_line A → hebrew_line B → no_book_name A → no_book_name B →
      verses (scan initial [lit "Genesis"; lit "1:1"; A; lit "1:2"; B])
      = <[lit "genesis-1-2" := B]> (<[lit "genesis-1-1" := A]> ∅).
Proof.
  split.
  - intros st line. rewrite step_eq.
    destruct (locate st line) as [[book chapter] verse]. cbn zeta.
    cbn [current_book current_chapter current_verse verses].
    unfold record_hebrew. split.
    + intros Hne Hv. rewrite bool_decide_eq_true_2 by done.
      apply N.ltb_lt in Hv. rewrite Hv. simpl.
      by destruct (verses st !! verse_key book chapter verse).
    + intros [He|Hv].
      * by rewrite bool_decide_eq_false_2 by (by intros H).
      * rewrite Hv, andb_false_r. done.
  - intros A B HA HB HnA HnB.
    change (scan initial [lit "Genesis"; lit "1:1"; A; lit "1:2"; B])
      with (step (step (step (scan initial [lit "Genesis"; lit "1:1"]) A)
                       (lit "1:2")) B).
    assert (scan initial [lit "Genesis"; lit "1:1"]
            = {| current_book := lit "genesis"; current_chapter := 1;
                 current_verse := 1; verses := ∅ |}) as -> by (by vm_compute).
    rewrite (step_hebrew_line _ A) by done.
    cbn [current_book current_chapter current_verse verses].
    rewrite record_hebrew_line by done.
    rewrite (step_reference _ (lit "1:2") [49] [50]) by (by vm_compute).
    cbn [current_book current_chapter current_verse verses].
    rewrite (step_hebrew_line _ B) by done.
    cbn [current_book current_chapter current_verse verses].
    rewrite record_hebrew_line by (done || by vm_compute).
    change (verse_key (lit "genesis") 1 1) with (lit "genesis-1-1").
    change (verse_key (lit "genesis") (Py.int_of_digits [49])
                      (Py.int_of_digits [50])) with (lit "genesis-1-2").
    rewrite lookup_empty.
    rewrite lookup_insert_ne by (by vm_compute).
    by rewrite lookup_empty.
Qed.

Lemma hebrew_line_bara_or : hebrew_line (bara ++ lit " " ++ or_).
Proof.
  exists [bara; or_]. split; [done|]. split; [|done].
  repeat (apply Forall_cons_2; [split; [done | by vm_compute; repeat constructor]|]).
  apply Forall_nil_2.
Qed.

Lemma hebrew_line_or : hebrew_line or_.
Proof.
  exists [or_]. split; [done|]. split; [|done].
  repeat (apply Forall_cons_2; [split; [done | by vm_compute; repeat constructor]|]).
  apply Forall_nil_2.
Qed.

Lemma hebrew_goes_to_current_verse_witness :
  verses (scan initial [lit "Genesis"; lit "1:1"; bara ++ lit " " ++ or_;
                        lit "1:2"; or_])
  = <[lit "genesis-1-2" := or_]>
      (<[lit "genesis-1-1" := bara ++ lit " " ++ or_]> ∅).
Proof.
  apply (proj2 hebrew_goes_to_current_verse);
    [apply hebrew_line_bara_or | apply hebrew_line_or | |];
    unfold no_book_name, book_patterns;
    repeat (apply Forall_cons_2; [by vm_compute|]); apply Forall_nil_2.
Defined.

(** C6, as stated, fails: the unpointed first word of Genesis is a
    Hebrew-script line and the Hebrew name of the book; as line A it is
    read as a book header, which resets current_verse to 0, and the output
    has no entry genesis-1-1. *)
Lemma hebrew_book_name_line_is_dropped :
  forallb hebrew_class bereshit = true
  ∧ forallb hebrew_class or_ = true
  ∧ verses (scan initial [lit "Genesis"; lit "1:1"; bereshit; lit "1:2"; or_])
    = <[lit "genesis-1-2" := or_]> ∅
  ∧ verses (scan initial [lit "Genesis"; lit "1:1"; bereshit; lit "1:2"; or_])
    !! lit "genesis-1-1" = None
  ∧ current_verse (scan initial [lit "Genesis"; lit "1:1"; bereshit]) = 0.
Proof. by vm_compute. Qed.

End LocatorFacts.

(** ** extract_scriptures_ocr.py *)

Module OcrFacts.

Import ExtractOcr ChainSpec.

(** *** The preprocessing chain *)

Lemma binarize_level_threshold x :
  ((x < 128 → binarize_level x = 0) ∧ (128 ≤ x → binarize_level x = 255))%Z.
Proof. unfold binarize_level. destruct (Z.ltb_spec x 128); lia. Qed.

(** C9.  [preprocess_image] applies exactly the enabled steps of the chain
    grayscale (when the image is not in mode L), contrast by the configured
    factor (when it is not 1.0), sharpen, median filter, binarization, in
    that order; a step that is off leaves the image as it is, so with every
    step off the image is returned unchanged; the binarization maps a
    sample below 128, the middle of the range 0..255, to 0 and any other
    to 255. *)
Theorem preprocess_image_chain :
  ∀ (Image : Type) (mode : Image → string) (convert : string → Image → Image)
    (Contrast_enhance : Image → Q → Image) (filter_SHARPEN : Image → Image)
    (filter_MedianFilter : Z → Image → Image)
    (point : (Z → Z) → string → Image → Image)
    (img : Image) (config : OCRConfig),
    let steps := chain Image mode convert Contrast_enhance filter_SHARPEN
                       filter_MedianFilter point img config in
    let result := preprocess_image Image mode convert Contrast_enhance
                    filter_SHARPEN filter_MedianFilter point img config in
    result = apply_steps Image (enabled Image steps) img
    ∧ result = foldl (λ im (s : bool * (Image → Image)),
                        if s.1 then s.2 im else im) img steps
    ∧ (Forall (λ s, s.1 = false) steps → result = img)
    ∧ (∀ x, (0 ≤ x ≤ 255)%Z →
         binarize_level x = if (x <? (0 + 255 + 1) / 2)%Z then 0%Z else 255%Z).
Proof.
  intros. subst steps result. unfold preprocess_image, chain.
  split_and!.
  - unfold enabled, apply_steps.
    destruct (negb (String.eqb (mode img) "L")),
      (negb (Qeq_bool (enhance_contrast config) 1)),
      (sharpen config), (denoise config), (threshold config); reflexivity.
  - reflexivity.
  - intros H.
    repeat match goal with
           | H : Forall _ (_ :: _) |- _ => apply Forall_cons in H as [? H]
           end.
    simpl in *.
    repeat match goal with H : _ = false |- _ => rewrite H end.
    reflexivity.
  - intros x _. reflexivity.
Qed.

Lemma preprocess_image_chain_witness :
  preprocess_image toy_image fst toy_convert toy_contrast toy_filter
                   (λ _, toy_filter) toy_point ("L"%string, [10; 200]%Z)
                   plain_config
  = ("L"%string, [10; 200]%Z).
Proof.
  apply (preprocess_image_chain toy_image fst toy_convert toy_contrast
           toy_filter (λ _, toy_filter) toy_point ("L"%string, [10; 200]%Z)
           plain_config).
  repeat (apply Forall_cons_2; [by vm_compute|]). apply Forall_nil_2.
Defined.

(** *** The configuration search *)

Lemma max_from_spec {A} (key : A → Z) best l :
  (max_from key best l = best ∧ ∀ y, y ∈ l → (key y ≤ key best)%Z)
  ∨ ∃ l1 l2, l = l1 ++ max_from key best l :: l2
             ∧ (key best < key (max_from key best l))%Z
             ∧ (∀ y, y ∈ l1 → (key y < key (max_from key best l))%Z)
             ∧ (∀ y, y ∈ l2 → (key y ≤ key (max_from key best l))%Z).
Proof.
  revert best. induction l as [|x l IH]; intros best; simpl.
  - left. split; [done|]. intros y Hy. by apply elem_of_nil in Hy.
  - destruct (Z.ltb_spec (key best) (key x)) as [Hlt|Hge].
    + right. destruct (IH x) as [[-> Hall]|(l1 & l2 & Hl & Hk & H1 & H2)].
      * exists [], l. split_and!; [done | done | | done].
        intros y Hy. by apply elem_of_nil in Hy.
      * exists (x :: l1), l2. split_and!; [by rewrite Hl at 1 | lia | | done].
        intros y [->|Hy]%elem_of_cons; [lia | by apply H1].
    + destruct (IH best) as [[-> Hall]|(l1 & l2 & Hl & Hk & H1 & H2)].
      * left. split; [done|].
        intros y [->|Hy]%elem_of_cons; [lia | by apply Hall].
      * right. exists (x :: l1), l2.
        split_and!; [by rewrite Hl at 1 | done | | done].
        intros y [->|Hy]%elem_of_cons; [lia | by apply H1].
Qed.

(** [max] returns the first of the greatest elements. *)
Lemma py_max_first {A} (key : A → Z) l :
  l ≠ [] →
  ∃ b l1 l2, py_max key l = Some b ∧ l = l1 ++ b :: l2
             ∧ (∀ y, y ∈ l1 → (key y < key b)%Z)
             ∧ (∀ y, y ∈ l → (key y ≤ key b)%Z).
Proof.
  destruct l as [|x l]; [done|]. intros _. simpl.
  destruct (max_from_spec key x l) as [[E Hall]|(l1 & l2 & Hl & Hk & H1 & H2)].
  - exists x, [], l. rewrite E. split_and!; [done | done | |].
    + intros y Hy. by apply elem_of_nil in Hy.
    + intros y [->|Hy]%elem_of_cons; [lia | by apply Hall].
  - exists (max_from key x l), (x :: l1), l2.
    split_and!; [done | by rewrite Hl at 1 | |].
    + intros y [->|Hy]%elem_of_cons; [lia | by apply H1].
    + intros y [->|Hy]%elem_of_cons; [lia|].
      rewrite Hl in Hy.
      apply elem_of_app in Hy as [Hy|[->|Hy]%elem_of_cons];
        [apply H1 in Hy; lia | lia | by apply H2].
Qed.

Lemma dict_set_fresh {V} k (v : V) d :
  k ∉ d.*1 → dict_set k v d = d ++ [(k, v)].
Proof.
  induction d as [|[k' v'] d IH]; [done|]. simpl.
  intros [Hne Hd]%not_elem_of_cons.
  rewrite bool_decide_eq_false_2 by done. by rewrite IH.
Qed.

(** With distinct names, the results are the yields of the candidates in
    their order. *)
Lemma run_configs_distinct recognize candidates :
  NoDup candidates.*1 →
  run_configs recognize candidates
  = (λ c, (c.1, yield_of recognize c.2)) <$> candidates.
Proof.
  unfold run_configs.
  assert (∀ done_ todo : list (text * OCRConfig),
            NoDup (done_ ++ todo).*1 →
            foldl (λ results '(name, config),
                     dict_set name (yield_of recognize config) results)
                  ((λ c, (c.1, yield_of recognize c.2)) <$> done_) todo
            = (λ c, (c.1, yield_of recognize c.2)) <$> (done_ ++ todo)) as H.
  { intros done_ todo. revert done_.
    induction todo as [|[name config] todo IH]; intros done_ Hnd.
    - by rewrite app_nil_r.
    - simpl. rewrite dict_set_fresh.
      + replace (((λ c, (c.1, yield_of recognize c.2)) <$> done_)
                 ++ [(name, yield_of recognize config)])
          with ((λ c, (c.1, yield_of recognize c.2))
                <$> (done_ ++ [(name, config)]))
          by (by rewrite fmap_app).
        rewrite IH; rewrite <- app_assoc; done.
      + rewrite fmap_app in Hnd. apply NoDup_app in Hnd as (_ & Hd & _).
        rewrite <- list_fmap_compose. intros Hin. apply (Hd name Hin).
        simpl. by left. }
  intros Hnd. apply (H [] candidates Hnd).
Qed.

Lemma best_of_candidates recognize (count : Yield → Z) candidates :
  candidates ≠ [] → NoDup candidates.*1 →
  ∃ name config before after,
    candidates = before ++ (name, config) :: after
    ∧ py_max (λ x, count x.2) (run_configs recognize candidates)
      = Some (name, yield_of recognize config)
    ∧ (∀ c, c ∈ before →
         (count (yield_of recognize c.2)
          < count (yield_of recognize config))%Z)
    ∧ (∀ c, c ∈ candidates →
         (count (yield_of recognize c.2)
          ≤ count (yield_of recognize config))%Z).
Proof.
  intros Hne Hnd. rewrite run_configs_distinct by done.
  destruct (py_max_first (λ x : text * Yield, count x.2)
              ((λ c, (c.1, yield_of recognize c.2)) <$> candidates))
    as (b & l1 & l2 & Hb & Hl & H1 & H2); [by destruct candidates|].
  apply fmap_app_inv in Hl as (before & rest & -> & Hrest & ->).
  symmetry in Hrest.
  apply fmap_cons_inv in Hrest as ([name config] & after & -> & -> & ->).
  exists name, config, before, after. rewrite Hb. simpl in *.
  split_and!; [done | done | |].
  - intros c Hc. apply (H1 (c.1, yield_of recognize c.2)).
    apply list_elem_of_fmap. by exists c.
  - intros c Hc. apply (H2 (c.1, yield_of recognize c.2)).
    apply list_elem_of_fmap. by exists c.
Qed.

(** C8.  For every non-empty list of candidate configurations (with the
    distinct names of a dictionary), the configuration reported as best for
    Hebrew has the greatest hebrew_count of all candidates and is the first
    listed of those that have it; likewise for Greek with greek_count. *)
Theorem best_config_is_first_maximum recognize candidates :
  candidates ≠ [] → NoDup candidates.*1 →
  (∃ name config before after,
     candidates = before ++ (name, config) :: after
     ∧ best_hebrew (run_configs recognize candidates)
       = Some (name, yield_of recognize config)
     ∧ (∀ c, c ∈ before →
          (hebrew_count (yield_of recognize c.2)
           < hebrew_count (yield_of recognize config))%Z)
     ∧ (∀ c, c ∈ candidates →
          (hebrew_count (yield_of recognize c.2)
           ≤ hebrew_count (yield_of recognize config))%Z))
  ∧ (∃ name config before after,
       candidates = before ++ (name, config) :: after
       ∧ best_greek (run_configs recognize candidates)
         = Some (name, yield_of recognize config)
       ∧ (∀ c, c ∈ before →
            (greek_count (yield_of recognize c.2)
             < greek_count (yield_of recognize config))%Z)
       ∧ (∀ c, c ∈ candidates →
            (greek_count (yield_of recognize c.2)
             ≤ greek_count (yield_of recognize config))%Z)).
Proof.
  intros Hne Hnd. split.
  - apply (best_of_candidates recognize hebrew_count); done.
  - apply (best_of_candidates recognize greek_count); done.
Qed.

Lemma configs_distinct : NoDup configs.*1.
Proof. apply (bool_decide_unpack _). by vm_compute. Qed.

Lemma best_config_is_first_maximum_witness :
  best_hebrew (run_configs toy_recognize configs)
  = Some (lit "high_contrast",
          {| hebrew_count := 2; greek_count := 0; total_chars := 7;
             sample := bara ++ lit " " ++ or_ |})
  ∧ ∃ name config before after,
      configs = before ++ (name, config) :: after
      ∧ best_hebrew (run_configs toy_recognize configs)
        = Some (name, yield_of toy_recognize config)
      ∧ (∀ c, c ∈ before →
           (hebrew_count (yield_of toy_recognize c.2)
            < hebrew_count (yield_of toy_recognize config))%Z)
      ∧ (∀ c, c ∈ configs →
           (hebrew_count (yield_of toy_recognize c.2)
            ≤ hebrew_count (yield_of toy_recognize config))%Z).
Proof.
  split; [by vm_compute|].
  apply (best_config_is_first_maximum toy_recognize configs);
    [done | apply configs_distinct].
Defined.

End OcrFacts.

(** ** verify_ocr_accuracy.py *)

Module VerifyFacts.

Import VerifyOcr.

(** C3, the failing case.  On an empty expected text [find_verse_in_ocr]
    reports the verse as found with similarity 1.0, whatever was
    recognized: the empty string is a substring of every string, so the
    first test succeeds and the guard for a text without words is not
    reached. *)
Theorem empty_expected_is_found ocr_text pattern :
  find_verse_in_ocr ocr_text [] pattern = (true, 1%Q, []).
Proof. unfold find_verse_in_ocr. by rewrite ReFacts.contains_empty. Qed.

(** With no target-script text recognized, every non-empty expected text
    is reported as not found with similarity 0.0. *)
Lemma empty_ocr_is_not_found ocr_text verified_text pattern :
  pattern ocr_text = [] → verified_text ≠ [] →
  find_verse_in_ocr ocr_text verified_text pattern = (false, 0%Q, []).
Proof.
  intros Hp Hv. unfold find_verse_in_ocr. rewrite Hp.
  change (Py.join (lit " ") []) with (@nil N).
  rewrite ReFacts.contains_in_empty by done.
  pose proof (ReFacts.scan_runs_nonempty (λ c, negb (Py.isspace c)) [] verified_text)
    as Hw. unfold split, Re.findall.
  destruct (Re.scan_runs _ [] verified_text) as [|first_word rest]; [done|].
  apply Forall_cons in Hw as [Hw _].
  rewrite ReFacts.contains_in_empty by done.
  unfold calculate_similarity. by destruct verified_text.
Qed.

(** Over a corpus without empty texts, an empty recognized text gives
    found = false and similarity = 0.0 for every verse checked. *)
Lemma check_verses_empty_ocr verified_data cls :
  Forall (λ e, e.2 ≠ []) verified_data →
  Forall (λ r, r.1.2 = false ∧ r.2 = 0%Q)
         (check_verses [] verified_data (Re.findall cls)).
Proof.
  intros H. unfold check_verses. apply Forall_fmap.
  apply (Forall_take _ 20%nat) in H. eapply Forall_impl; [exact H|].
  intros [verse_ref verified_text] Hne. simpl in *.
  by rewrite empty_ocr_is_not_found.
Qed.

(** C4, as amended.  [find_verse_in_ocr] joins the target-script runs of
    the recognized text with single spaces, and when the expected text as
    given, not normalized, is a substring of that it returns found = true,
    similarity = 1.0 and the expected text; otherwise, for an expected text
    with a word, the similarity is that of [calculate_similarity], the only
    place where the two texts are normalized (and only when both are
    non-empty). *)
Theorem raw_substring_is_found ocr_text verified_text pattern :
  let ocr_combined := Py.join (lit " ") (pattern ocr_text) in
  (Py.contains verified_text ocr_combined = true →
     find_verse_in_ocr ocr_text verified_text pattern
     = (true, 1%Q, verified_text))
  ∧ (Py.contains verified_text ocr_combined = false →
     split verified_text ≠ [] →
     (find_verse_in_ocr ocr_text verified_text pattern).1.2
     = calculate_similarity verified_text ocr_combined)
  ∧ (verified_text ≠ [] → ocr_combined ≠ [] →
     calculate_similarity verified_text ocr_combined
     = Difflib.ratio (normalize_text verified_text)
                     (normalize_text ocr_combined)).
Proof.
  cbn zeta. unfold find_verse_in_ocr. split_and!.
  - by intros ->.
  - intros -> Hw. destruct (split verified_text) as [|first_word rest]; [done|].
    by destruct (Py.contains first_word _).
  - intros Hv Ho. unfold calculate_similarity.
    destruct verified_text; [done|].
    by destruct (Py.join (lit " ") (pattern ocr_text)).
Qed.

Lemma raw_substring_is_found_witness :
  find_verse_in_ocr (lit "1:1 " ++ bereshit ++ lit " " ++ bara ++ lit " x")
                    (bereshit ++ lit " " ++ bara) HEBREW_PATTERN
  = (true, 1%Q, bereshit ++ lit " " ++ bara).
Proof.
  apply (raw_substring_is_found
           (lit "1:1 " ++ bereshit ++ lit " " ++ bara ++ lit " x")
           (bereshit ++ lit " " ++ bara) HEBREW_PATTERN).
  by vm_compute.
Defined.

(** C4, as stated, fails: the pointed first word of Genesis, normalized,
    is a substring of the normalized recognized text (unpointed), yet the
    similarity returned is 3/4 and not 1.0; and the pointed word "or" is,
    normalized, a substring of a recognized line, yet it is reported as not
    found with similarity 6/17. *)
Lemma normalized_substring_not_found :
  Py.contains (normalize_text bereshit_pointed)
    (normalize_text
       (Py.join (lit " ") (HEBREW_PATTERN (bereshit ++ lit " " ++ bara))))
  = true
  ∧ find_verse_in_ocr (bereshit ++ lit " " ++ bara) bereshit_pointed
                      HEBREW_PATTERN
    = (true, 3 # 4, [])
  ∧ Py.contains (normalize_text or_pointed)
      (normalize_text
         (Py.join (lit " ")
            (HEBREW_PATTERN
               (bereshit ++ lit " " ++ bara ++ lit " " ++ or_))))
    = true
  ∧ find_verse_in_ocr (bereshit ++ lit " " ++ bara ++ lit " " ++ or_)
                      or_pointed HEBREW_PATTERN
    = (false, 6 # 17, []).
Proof. by vm_compute. Qed.

End VerifyFacts.

(** ** language_detector.py: the helpers and the decision chain *)

Module DetectorExtras.

Import LanguageDetector.

(** *** Runs of a class *)

Lemma scan_runs_found cls cur s :
  Re.scan_runs cls cur s ≠ [] ↔ cur ≠ [] ∨ existsb cls s = true.
Proof.
  revert cur. induction s as [|c s IH]; intros cur; simpl.
  - destruct cur; naive_solver.
  - destruct (cls c) eqn:E; simpl.
    + rewrite IH. split; [auto|]. intros _. left. by destruct cur.
    + destruct cur as [|x cur]; simpl.
      * rewrite IH. naive_solver.
      * naive_solver.
Qed.

Lemma scan_runs_in_class cls cur s :
  Forall (λ c, cls c = true) cur →
  Forall (Forall (λ c, cls c = true)) (Re.scan_runs cls cur s).
Proof.
  assert (∀ run, Forall (λ c, cls c = true) run →
            Forall (Forall (λ c, cls c = true)) (Re.close_run run)) as Hclose.
  { intros [|x run] H; simpl; [apply Forall_nil_2|].
    apply Forall_cons_2; [done | apply Forall_nil_2]. }
  revert cur. induction s as [|c s IH]; intros cur Hcur; simpl.
  - by apply Hclose.
  - destruct (cls c) eqn:E.
    + apply IH, Forall_app. split; [done|].
      apply Forall_cons_2; [done | apply Forall_nil_2].
    + apply Forall_app. split; [by apply Hclose|].
      apply IH, Forall_nil_2.
Qed.

Lemma findall_words cls s :
  Forall (λ w, w ≠ [] ∧ Forall (λ c, cls c = true) w) (Re.findall cls s).
Proof.
  apply Forall_and. split.
  - apply ReFacts.scan_runs_nonempty.
  - apply scan_runs_in_class, Forall_nil_2.
Qed.

Lemma join_nonempty ws :
  ws ≠ [] → Forall (λ w : text, w ≠ []) ws → Py.join (lit " ") ws ≠ [].
Proof.
  destruct ws as [|w ws]; [done|]. intros _ [Hw _]%Forall_cons.
  destruct ws; simpl; by destruct w.
Qed.

(** X1.  [has_hebrew], [has_greek] and [has_aramaic] agree with the counts
    of [detect_language]: each is true exactly when the pattern finds at
    least one run. *)
Theorem has_script_iff_runs t :
  (has_hebrew t = true ↔ HEBREW_PATTERN t ≠ [])
  ∧ (has_greek t = true ↔ GREEK_PATTERN t ≠ [])
  ∧ (has_aramaic t = true ↔ IMPERIAL_ARAMAIC_PATTERN t ≠ []).
Proof.
  unfold has_hebrew, has_greek, has_aramaic, HEBREW_PATTERN, GREEK_PATTERN,
    IMPERIAL_ARAMAIC_PATTERN, Re.search, Re.findall.
  rewrite !scan_runs_found. naive_solver.
Qed.

(** X2.  Extracting is idempotent: the text [extract_hebrew] (or
    [extract_greek]) returns is made of code points of the script and
    single spaces only, and extracting from it again returns it
    unchanged. *)
Theorem extract_idempotent t :
  extract_hebrew (extract_hebrew t) = extract_hebrew t
  ∧ extract_greek (extract_greek t) = extract_greek t
  ∧ Forall (λ c, hebrew_class c = true ∨ c = 32) (extract_hebrew t)
  ∧ Forall (λ c, greek_class c = true ∨ c = 32) (extract_greek t).
Proof.
  unfold extract_hebrew, extract_greek, HEBREW_PATTERN, GREEK_PATTERN.
  split_and!.
  - by rewrite (ReFacts.findall_join hebrew_class) by (done || apply findall_words).
  - by rewrite (ReFacts.findall_join greek_class) by (done || apply findall_words).
  - apply ReFacts.join_chars; [by right|].
    eapply Forall_impl; [apply (findall_words hebrew_class)|].
    intros w [_ Hw]. eapply Forall_impl; [exact Hw|]. by left.
  - apply ReFacts.join_chars; [by right|].
    eapply Forall_impl; [apply (findall_words greek_class)|].
    intros w [_ Hw]. eapply Forall_impl; [exact Hw|]. by left.
Qed.


(** *** Confidence *)

Lemma truediv_pos a b :
  (0 < b)%Z → Py.truediv a b = Some (Qred (inject_Z a / inject_Z b)).
Proof.
  intros Hb. unfold Py.truediv. destruct (Z.eqb_spec b 0); [lia | done].
Qed.

Lemma Qred_div_nonneg a b :
  (0 ≤ a)%Z → (0 < b)%Z → (0 <= Qred (inject_Z a / inject_Z b))%Q.
Proof.
  intros Ha Hb. rewrite Qred_correct.
  assert (0 < inject_Z b)%Q as Hq by (by rewrite (Zlt_Qlt 0 b) in Hb).
  apply Qle_shift_div_l; [done|]. rewrite Qmult_0_l.
  by rewrite (Zle_Qle 0 a) in Ha.
Qed.

Lemma Qred_div_le_1 a b :
  (a ≤ b)%Z → (0 < b)%Z → (Qred (inject_Z a / inject_Z b) <= 1)%Q.
Proof.
  intros Hab Hb. rewrite Qred_correct.
  assert (0 < inject_Z b)%Q as Hq by (by rewrite (Zlt_Qlt 0 b) in Hb).
  apply Qle_shift_div_r; [done|]. rewrite Qmult_1_l. by rewrite <- Zle_Qle.
Qed.

Lemma Qred_div_same a : (0 < a)%Z → Qred (inject_Z a / inject_Z a) = 1%Q.
Proof.
  intros Ha. change 1%Q with (Qred 1). apply Qred_complete.
  apply Qmult_inv_r. intros H. apply (inject_Z_injective a 0) in H. lia.
Qed.

Lemma len_nonneg l : (0 ≤ len l)%Z.
Proof. unfold len. lia. Qed.

Lemma len_zero l : (0 <? len l)%Z = false ↔ l = [].
Proof.
  unfold len. destruct l; simpl; [done|]. split; [|done].
  intros H%Z.ltb_ge. lia.
Qed.

(** The confidence of the vocabulary rule for [n] matched words. *)
Lemma vocabulary_confidence t has words conf :
  detect_aramaic_vocabulary t = Some (has, words, conf) →
  (0 <= conf <= 1)%Q
  ∧ (has && negb (Qle_bool conf 0.5%Q) = true ↔ (2 ≤ length words)%nat)
  ∧ (t ≠ [] → words = filter (λ word, Py.contains word t = true)
                             ARAMAIC_VOCABULARY).
Proof.
  unfold detect_aramaic_vocabulary. destruct t as [|c t].
  { intros [= <- <- <-]. split_and!; [done | done | | done].
    simpl. split; [done | lia]. }
  pose proof (length_filter (λ word, Py.contains word (c :: t) = true)
                ARAMAIC_VOCABULARY) as Hlen.
  destruct (filter _ ARAMAIC_VOCABULARY) as [|w ws] eqn:E.
  { intros [= <- <- <-]. split_and!; [done | done | | done].
    simpl. split; [done | lia]. }
  rewrite truediv_pos by done. cbn [mbind option_bind].
  intros [= <- <- <-]. change (length ARAMAIC_VOCABULARY) with 14%nat in Hlen.
  split_and!; [| | | done].
  - unfold Py.min. destruct (Qle_bool _ 1) eqn:Hq; [|done].
    apply Qred_div_nonneg; lia.
  - unfold Py.min. destruct (Qle_bool _ 1) eqn:Hq; [|done].
    by apply Qle_bool_iff in Hq.
  - do 14 (destruct ws as [|? ws];
           [cbn [length]; split; intros H;
            [first [lia | by vm_compute in H] | first [by vm_compute | lia]]|]).
    simpl in Hlen. lia.
Qed.

(** The language and the confidence [detect_language] returns on a
    non-empty string, branch by branch. *)
Lemma detect_language_branches t book chapter verse :
  t ≠ [] →
  let h := len (HEBREW_PATTERN t) in
  let g := len (GREEK_PATTERN t) in
  let i := len (IMPERIAL_ARAMAIC_PATTERN t) in
  ∃ d has words vc,
    detect_language (Str t) book chapter verse = Some d
    ∧ detect_aramaic_vocabulary t = Some (has, words, vc)
    ∧ (language d, confidence d)
      = if known_passage book chapter verse && (0 <? h)%Z
        then (aramaic, 0.95%Q)
        else if (0 <? i)%Z
        then (aramaic, Qred (inject_Z (h + i) / inject_Z (h + g + i)))
        else if has && (0 <? h)%Z && negb (Qle_bool vc 0.5%Q)
        then (aramaic, vc)
        else if (0 <? h)%Z
        then (hebrew, Qred (inject_Z h / inject_Z (h + g)))
        else if (0 <? g)%Z
        then (greek, Qred (inject_Z g / inject_Z (h + g)))
        else (unknown, 0%Q).
Proof.
  intros Ht h g i. destruct t as [|c t]; [done|].
  pose proof (len_nonneg (HEBREW_PATTERN (c :: t))) as Hh.
  pose proof (len_nonneg (GREEK_PATTERN (c :: t))) as Hg.
  pose proof (len_nonneg (IMPERIAL_ARAMAIC_PATTERN (c :: t))) as Hi.
  unfold detect_language.
  destruct (DetectorFacts.detect_aramaic_vocabulary_total (c :: t))
    as (has & words & vc & Hv).
  rewrite Hv. fold h g i in Hh, Hg, Hi |- *. cbn [mbind option_bind].
  destruct (known_passage book chapter verse && (0 <? h)%Z) eqn:E1.
  { eexists _, has, words, vc; split_and!; [done..|]; by rewrite ?E3. }
  assert ((len (HEBREW_PATTERN (c :: t) ++ IMPERIAL_ARAMAIC_PATTERN (c :: t)))
          = (h + i)%Z) as Hlen.
  { unfold h, i, len. rewrite length_app. lia. }
  destruct (Z.ltb_spec 0 i) as [E2|E2].
  { rewrite Hlen. rewrite (proj2 (Z.ltb_lt 0 (h + g + i))) by lia.
    rewrite truediv_pos by lia. eexists _, has, words, vc; split_and!; [done..|]; by rewrite ?E3. }
  destruct (has && (0 <? h)%Z && negb (Qle_bool vc 0.5)) eqn:E3.
  { eexists _, has, words, vc; split_and!; [done..|]; by rewrite ?E3. }
  destruct (Z.ltb_spec 0 h) as [E4|E4].
  { rewrite (proj2 (Z.ltb_lt 0 (h + g))) by lia.
    rewrite truediv_pos by lia. eexists _, has, words, vc; split_and!; [done..|]; by rewrite ?E3. }
  destruct (Z.ltb_spec 0 g) as [E5|E5].
  { rewrite (proj2 (Z.ltb_lt 0 (h + g))) by lia.
    rewrite truediv_pos by lia. eexists _, has, words, vc; split_and!; [done..|]; by rewrite ?E3. }
  eexists _, has, words, vc; split_and!; [done..|]; by rewrite ?E3.
Qed.

(** X4.  The confidence [detect_language] returns lies between 0 and 1, on
    every input. *)
Theorem confidence_bounds t book chapter verse :
  ∃ d, detect_language t book chapter verse = Some d
       ∧ (0 <= confidence d <= 1)%Q.
Proof.
  destruct t as [[|c t]|truthy]; [by eexists | | by eexists].
  pose proof (len_nonneg (HEBREW_PATTERN (c :: t))) as Hh.
  pose proof (len_nonneg (GREEK_PATTERN (c :: t))) as Hg.
  pose proof (len_nonneg (IMPERIAL_ARAMAIC_PATTERN (c :: t))) as Hi.
  destruct (detect_language_branches (c :: t) book chapter verse)
    as (d & has & words & vc & Hd & Hv & Hr); [done|].
  exists d. split; [done|].
  apply vocabulary_confidence in Hv as (Hvc & _).
  cbn zeta in Hr.
  repeat match type of Hr with
         | _ = (if ?b then _ else _) => destruct b eqn:?
         end;
    injection Hr as _ ->; try done;
    repeat match goal with
           | H : (0 <? _)%Z = true |- _ => apply Z.ltb_lt in H
           end;
    (split; [apply Qred_div_nonneg | apply Qred_div_le_1]); lia.
Qed.

Lemma Qred_div_one a b :
  (0 < b)%Z → Qred (inject_Z a / inject_Z b) = 1%Q → a = b.
Proof.
  intros Hb H.
  assert (inject_Z a / inject_Z b == 1)%Q as Hq
    by (by rewrite <- Qred_correct, H).
  assert (¬ inject_Z b == 0)%Q as Hnz.
  { intros H0. apply (inject_Z_injective b 0) in H0. lia. }
  apply inject_Z_injective.
  rewrite <- (Qmult_div_r (inject_Z a) (inject_Z b)) by done.
  rewrite Hq. apply Qmult_1_r.
Qed.

(** X5.  Hebrew script has priority over Greek: the language is unknown
    exactly when the text has no Hebrew, Greek or Imperial-Aramaic run; it
    is Greek only when there is no Hebrew and no Imperial-Aramaic run, and
    then the confidence is exactly 1; and a text classified as Hebrew has
    confidence 1 exactly when it has no Greek run. *)
Theorem script_priority t book chapter verse :
  ∃ d, detect_language (Str t) book chapter verse = Some d
       ∧ (language d = unknown
          ↔ HEBREW_PATTERN t = [] ∧ GREEK_PATTERN t = []
            ∧ IMPERIAL_ARAMAIC_PATTERN t = [])
       ∧ (language d = greek →
            HEBREW_PATTERN t = [] ∧ IMPERIAL_ARAMAIC_PATTERN t = []
            ∧ confidence d = 1%Q)
       ∧ (language d = hebrew →
            (confidence d = 1%Q ↔ GREEK_PATTERN t = [])).
Proof.
  destruct t as [|c t]; [by eexists|].
  pose proof (len_nonneg (HEBREW_PATTERN (c :: t))) as Hh.
  pose proof (len_nonneg (GREEK_PATTERN (c :: t))) as Hg.
  destruct (detect_language_branches (c :: t) book chapter verse)
    as (d & has & words & vc & Hd & Hv & Hr); [done|].
  exists d. split; [done|]. cbn zeta in Hr.
  destruct (known_passage book chapter verse
            && (0 <? len (HEBREW_PATTERN (c :: t)))%Z) eqn:E1.
  { injection Hr as -> ->. apply andb_true_iff in E1 as [_ E1].
    split_and!; [|done..]. split; [done|]. intros (H & _).
    apply len_zero in H. congruence. }
  destruct (0 <? len (IMPERIAL_ARAMAIC_PATTERN (c :: t)))%Z eqn:E2.
  { injection Hr as -> ->. split_and!; [|done..]. split; [done|].
    intros (_ & _ & H). apply len_zero in H. congruence. }
  apply len_zero in E2.
  destruct (has && (0 <? len (HEBREW_PATTERN (c :: t)))%Z
            && negb (Qle_bool vc 0.5)) eqn:E3.
  { injection Hr as -> ->.
    apply andb_true_iff in E3 as [[_ E3]%andb_true_iff _].
    split_and!; [|done..]. split; [done|]. intros (H & _).
    apply len_zero in H. congruence. }
  destruct (0 <? len (HEBREW_PATTERN (c :: t)))%Z eqn:E4.
  { injection Hr as -> ->. split_and!; [|done|].
    - split; [done|]. intros (H & _). apply len_zero in H. congruence.
    - intros _. apply Z.ltb_lt in E4. split.
      + intros H%Qred_div_one; [|lia].
        apply len_zero. apply Z.ltb_ge. lia.
      + intros ->. change (len []) with 0%Z. rewrite Z.add_0_r.
        by apply Qred_div_same. }
  apply len_zero in E4.
  destruct (0 <? len (GREEK_PATTERN (c :: t)))%Z eqn:E5.
  { injection Hr as -> ->. split_and!; [| |done].
    - split; [done|]. intros (_ & H & _). apply len_zero in H. congruence.
    - intros _. split_and!; [done..|]. rewrite E4.
      change (len []) with 0%Z. rewrite Z.add_0_l.
      apply Qred_div_same. by apply Z.ltb_lt. }
  apply len_zero in E5. injection Hr as -> ->. by split_and!.
Qed.

(** X6.  Without reference hints, a text is classified as Aramaic exactly
    when it has an Imperial-Aramaic run, or it has a Hebrew-script run and
    at least two entries of ARAMAIC_VOCABULARY occur in it: one vocabulary
    word never makes a text Aramaic. *)
Theorem aramaic_without_hints t :
  ∃ d, detect_language (Str t) None None None = Some d
       ∧ (language d = aramaic
          ↔ IMPERIAL_ARAMAIC_PATTERN t ≠ []
            ∨ (HEBREW_PATTERN t ≠ []
               ∧ (2 ≤ length (filter (λ word, Py.contains word t = true)
                                     ARAMAIC_VOCABULARY))%nat)).
Proof.
  destruct t as [|c t].
  { eexists. split; [done|]. split; [done|]. by intros [H|[H _]]. }
  destruct (detect_language_branches (c :: t) None None None)
    as (d & has & words & vc & Hd & Hv & Hr); [done|].
  exists d. split; [done|]. cbn zeta in Hr.
  apply vocabulary_confidence in Hv as (_ & Hvc & Hw).
  rewrite <- Hw by done. clear Hw.
  change (known_passage None None None) with false in Hr.
  cbn [andb] in Hr.
  destruct (0 <? len (IMPERIAL_ARAMAIC_PATTERN (c :: t)))%Z eqn:E2.
  { injection Hr as -> _. split; [|done]. intros _. left.
    intros H. apply len_zero in H. congruence. }
  apply len_zero in E2. rewrite E2.
  destruct (0 <? len (HEBREW_PATTERN (c :: t)))%Z eqn:E4.
  - assert (HEBREW_PATTERN (c :: t) ≠ []) as Hne.
    { intros H. apply len_zero in H. congruence. }
    rewrite andb_true_r in Hr.
    destruct (has && negb (Qle_bool vc 0.5)) eqn:E3.
    + injection Hr as -> _. split; [|done]. intros _. right.
      split; [done|]. by apply Hvc.
    + injection Hr as -> _. split; [done|].
      intros [H|[_ H]]; [done|]. apply Hvc in H. congruence.
  - rewrite andb_false_r in Hr. cbn [andb] in Hr. apply len_zero in E4.
    destruct (0 <? len (GREEK_PATTERN (c :: t)))%Z;
      injection Hr as -> _; (split; [done|]); by intros [H|[H _]].
Qed.

(** *** The table of known passages *)

Lemma elem_of_range v a b : v ∈ range a b ↔ (a ≤ v < b)%Z.
Proof.
  unfold range. rewrite list_elem_of_fmap. split.
  - intros (i & -> & Hi). apply elem_of_seq in Hi. lia.
  - intros H. exists (Z.to_nat (v - a)). split; [lia|].
    apply elem_of_seq. lia.
Qed.

Lemma elem_of_in_chapter ch vs c v :
  (c, v) ∈ in_chapter ch vs ↔ c = ch ∧ v ∈ vs.
Proof.
  unfold in_chapter. rewrite list_elem_of_fmap. split.
  - by intros (x & [= -> ->] & Hx).
  - intros [-> Hv]. by exists v.
Qed.

(** X7.  The known Aramaic passages, verse by verse: Daniel from 2:4 (with
    no upper bound on the verse in chapter 2) through chapters 3 to 6 to
    chapter 7 up to verse 28 (with no lower bound), Ezra 4:8-24, 5:1-17,
    6:1-18 and 7:12-26 (the end of each [range] is excluded), Jeremiah
    10:11 and Genesis 31:47; nothing else, in no other book. *)
Theorem known_passages_table book chapter verse :
  is_aramaic_passage book chapter verse = true
  ↔ (normalize_book book = lit "daniel"
     ∧ ((chapter = 2 ∧ 4 ≤ verse) ∨ 3 ≤ chapter ≤ 6
        ∨ (chapter = 7 ∧ verse ≤ 28)))%Z
    ∨ (normalize_book book = lit "ezra"
       ∧ ((chapter = 4 ∧ 8 ≤ verse ≤ 24) ∨ (chapter = 5 ∧ 1 ≤ verse ≤ 17)
          ∨ (chapter = 6 ∧ 1 ≤ verse ≤ 18)
          ∨ (chapter = 7 ∧ 12 ≤ verse ≤ 26)))%Z
    ∨ (normalize_book book = lit "jeremiah" ∧ chapter = 10%Z ∧ verse = 11%Z)
    ∨ (normalize_book book = lit "genesis" ∧ chapter = 31%Z ∧ verse = 47%Z).
Proof.
  rewrite DetectorFacts.is_aramaic_passage_iff.
  unfold Spec.known, ARAMAIC_PASSAGES.
  generalize (normalize_book book). intros nb. split.
  - intros (info & Hl & H).
    apply lookup_insert_Some in Hl as [[<- <-]|[_ Hl]].
    { left. split; [done|]. cbn [verses chapters] in H.
      destruct H as [H|(r & Hr%list_elem_of_singleton & Hin)];
        [by apply elem_of_empty in H|].
      subst r. simpl in Hin. lia. }
    apply lookup_insert_Some in Hl as [[<- <-]|[_ Hl]].
    { right. left. split; [done|]. cbn [verses chapters] in H.
      destruct H as [H|(r & Hr%elem_of_nil & _)]; [|done].
      rewrite elem_of_list_to_set, !elem_of_app, !elem_of_in_chapter,
        !elem_of_range in H. lia. }
    apply lookup_insert_Some in Hl as [[<- <-]|[_ Hl]].
    { right. right. left. split; [done|]. cbn [verses chapters] in H.
      destruct H as [[= -> ->]%elem_of_singleton|(r & Hr%elem_of_nil & _)];
        done. }
    apply lookup_insert_Some in Hl as [[<- <-]|[_ Hl]].
    { right. right. right. split; [done|]. cbn [verses chapters] in H.
      destruct H as [[= -> ->]%elem_of_singleton|(r & Hr%elem_of_nil & _)];
        done. }
    by rewrite lookup_empty in Hl.
  - intros [[-> H]|[[-> H]|[(-> & -> & ->)|(-> & -> & ->)]]].
    + eexists. split; [apply lookup_insert_eq|]. right.
      exists (2, 4, 7, 28)%Z. split; [by apply list_elem_of_singleton|].
      simpl. lia.
    + eexists. split.
      { rewrite lookup_insert_ne by done. apply lookup_insert_eq. }
      left. cbn [verses].
      rewrite elem_of_list_to_set, !elem_of_app, !elem_of_in_chapter,
        !elem_of_range. lia.
    + eexists. split.
      { rewrite !lookup_insert_ne by done. apply lookup_insert_eq. }
      left. cbn [verses]. by apply elem_of_singleton.
    + eexists. split.
      { rewrite !lookup_insert_ne by done. apply lookup_insert_eq. }
      left. cbn [verses]. by apply elem_of_singleton.
Qed.

(** *** Book names *)

Lemma lower_char_idempotent c : Py.lower_char (Py.lower_char c) = Py.lower_char c.
Proof.
  unfold Py.lower_char at 2 3.
  destruct (N.leb_spec 65 c), (N.leb_spec c 90), (N.eqb_spec c 0x212A);
    simpl; unfold Py.lower_char;
    repeat match goal with
           | |- context [N.leb ?a ?b] => destruct (N.leb_spec a b)
           | |- context [N.eqb ?a ?b] => destruct (N.eqb_spec a b)
           end; simpl; lia.
Qed.

(** X8.  The book name of [is_aramaic_passage] is read without regard to
    ASCII case, spaces and hyphens: lower-casing the name, or inserting a
    space or a hyphen anywhere in it, does not change the answer. *)
Theorem book_name_insensitive book1 book2 chapter verse :
  is_aramaic_passage (Py.lower (book1 ++ book2)) chapter verse
  = is_aramaic_passage (book1 ++ book2) chapter verse
  ∧ is_aramaic_passage (book1 ++ 32 :: book2) chapter verse
    = is_aramaic_passage (book1 ++ book2) chapter verse
  ∧ is_aramaic_passage (book1 ++ 45 :: book2) chapter verse
    = is_aramaic_passage (book1 ++ book2) chapter verse.
Proof.
  unfold is_aramaic_passage.
  assert (normalize_book (Py.lower (book1 ++ book2))
          = normalize_book (book1 ++ book2)) as ->.
  { unfold normalize_book. f_equal; [|f_equal]; do 2 f_equal;
      unfold Py.lower; rewrite <- list_fmap_compose;
      apply list_fmap_ext; intros ? c _; apply lower_char_idempotent. }
  assert (normalize_book (book1 ++ 32 :: book2)
          = normalize_book (book1 ++ book2)) as ->.
  { unfold normalize_book, Py.lower, Py.remove_char.
    rewrite !fmap_app, fmap_cons, !filter_app, filter_cons.
    by change (Py.lower_char 32) with 32. }
  assert (normalize_book (book1 ++ 45 :: book2)
          = normalize_book (book1 ++ book2)) as ->.
  { unfold normalize_book, Py.lower, Py.remove_char.
    rewrite !fmap_app, fmap_cons, !filter_app, filter_cons.
    change (Py.lower_char 45) with 45.
    rewrite (decide_True (P := 45 ≠ 32)) by done.
    rewrite (filter_cons _ 45).
    by rewrite (decide_False (P := 45 ≠ 45)) by (by intros H). }
  done.
Qed.

End DetectorExtras.





(** ** extract_hebrew_from_bhs.py: invariants of the scan *)

Module LocatorExtras.

Import ExtractBhs Spec LocatorSpec.

(** *** Lines *)

Lemma split_cur_join sep cur s :
  Py.join [sep] (split_cur sep cur s) = cur ++ s
  ∧ split_cur sep cur s ≠ [].
Proof.
  revert cur. induction s as [|c s IH]; intros cur; simpl.
  - by rewrite app_nil_r.
  - destruct (N.eqb_spec c sep) as [->|Hne].
    + destruct (IH []) as [Hj Hn]. split; [|done].
      destruct (split_cur sep [] s) as [|l ls] eqn:E; [done|].
      change (Py.join [sep] (cur :: l :: ls))
        with (cur ++ sep :: Py.join [sep] (l :: ls)).
      by rewrite Hj.
    + destruct (IH (cur ++ [c])) as [Hj Hn]. split; [|done].
      by rewrite Hj, <- app_assoc.
Qed.

Lemma split_cur_no_sep sep cur s :
  sep ∉ cur → Forall (λ line, sep ∉ line) (split_cur sep cur s).
Proof.
  revert cur. induction s as [|c s IH]; intros cur Hcur; simpl.
  - by repeat constructor.
  - destruct (N.eqb_spec c sep) as [->|Hne].
    + constructor; [done|]. apply IH. apply not_elem_of_nil.
    + apply IH. rewrite elem_of_app, list_elem_of_singleton. naive_solver.
Qed.

(** X9.  Splitting a text into lines loses nothing: joining the lines
    with newlines gives the text back, there is always at least one line,
    and no line contains a newline. *)
Theorem split_lines_join t :
  Py.join [10] (split_lines t) = t
  ∧ split_lines t ≠ []
  ∧ Forall (λ line, 10 ∉ line) (split_lines t).
Proof.
  unfold split_lines. destruct (split_cur_join 10 [] t) as [Hj Hn].
  split_and!; [done | done |]. apply split_cur_no_sep, not_elem_of_nil.
Qed.

(** *** The scan *)

Lemma scan_cons st line lines :
  scan st (line :: lines) = scan (step st line) lines.
Proof. reflexivity. Qed.

Lemma step_without_reference st line :
  verse_pattern_search line = None → current_verse st = 0 →
  current_verse (step st line) = 0 ∧ verses (step st line) = verses st.
Proof.
  intros Hv H0. rewrite LocatorFacts.step_eq, LocatorFacts.locate_eq, Hv.
  destruct (find_book book_patterns line);
    cbn [current_verse verses]; unfold record_hebrew;
    rewrite ?H0; rewrite andb_false_r; done.
Qed.

(** X10.  Hebrew text is recorded only after a chapter:verse reference:
    when no line of the text holds a reference, the output is empty,
    whatever Hebrew the text contains. *)
Theorem no_reference_no_verses t :
  Forall (λ line, verse_pattern_search line = None) (split_lines t) →
  parse_verses_from_text t = ∅.
Proof.
  unfold parse_verses_from_text. intros H.
  assert (∀ lines st,
            Forall (λ line, verse_pattern_search line = None) lines →
            current_verse st = 0 →
            verses (scan st lines) = verses st) as Hscan.
  { induction lines as [|line lines IH]; intros st Hl H0; [done|].
    apply Forall_cons in Hl as [Hline Hl]. rewrite scan_cons.
    destruct (step_without_reference st line Hline H0) as [H0' Hv'].
    by rewrite IH. }
  by rewrite Hscan.
Qed.

Lemma no_reference_no_verses_witness :
  parse_verses_from_text (bereshit ++ lit " " ++ bara ++ [10] ++ or_) = ∅.
Proof.
  apply no_reference_no_verses.
  repeat (apply Forall_cons_2; [by vm_compute|]). apply Forall_nil_2.
Defined.

Lemma find_book_in patterns line book_id :
  find_book patterns line = Some book_id →
  book_id ∈ (λ p : text * text * text, p.2) <$> patterns.
Proof.
  induction patterns as [|[[english hebrew] id] patterns IH]; [done|].
  simpl. destruct (book_pattern_search english hebrew line).
  - intros [= ->]. by left.
  - intros H. right. by apply IH.
Qed.

Lemma locate_book st line :
  current_book st ∈ book_ids → (locate st line).1.1 ∈ book_ids.
Proof.
  intros Hb. rewrite LocatorFacts.locate_eq.
  destruct (verse_pattern_search line) as [[g1 g2]|];
    destruct (find_book book_patterns line) as [b|] eqn:E; simpl;
    first [done | by apply (find_book_in book_patterns line)].
Qed.

Lemma hebrew_text_ok line :
  HEBREW_PATTERN line ≠ [] →
  Py.join (lit " ") (HEBREW_PATTERN line) ≠ []
  ∧ Forall (λ c, hebrew_class c = true ∨ c = 32)
           (Py.join (lit " ") (HEBREW_PATTERN line)).
Proof.
  intros Hne. pose proof (DetectorExtras.findall_words hebrew_class line) as Hw.
  fold (HEBREW_PATTERN line) in Hw. split.
  - apply DetectorExtras.join_nonempty; [done|].
    eapply Forall_impl; [exact Hw|]. by intros w [? _].
  - apply ReFacts.join_chars; [by right|].
    eapply Forall_impl; [exact Hw|]. intros w [_ H].
    eapply Forall_impl; [exact H|]. by left.
Qed.

Lemma record_hebrew_ok book chapter verse line vs :
  book ∈ book_ids → map_Forall entry_ok vs →
  map_Forall entry_ok (record_hebrew book chapter verse line vs).
Proof.
  intros Hb Hvs. unfold record_hebrew.
  case_bool_decide as Hne; [|done]. simpl.
  destruct (N.ltb_spec 0 verse) as [Hv|Hv]; [|done].
  destruct (hebrew_text_ok line Hne) as [Hn Hc].
  assert (∃ b c v, verse_key book chapter verse = verse_key b c v
                   ∧ b ∈ book_ids ∧ 0 < v) as Hkey by (by eexists _, _, _).
  destruct (vs !! verse_key book chapter verse) as [old|] eqn:E.
  - apply map_Forall_insert_2; [|done].
    destruct (Hvs _ _ E) as (_ & Ho & Hoc). split_and!; [done | |].
    + by destruct old.
    + apply Forall_app. split; [done|]. apply Forall_cons_2; [by right|done].
  - apply map_Forall_insert_2; [|done]. by split_and!.
Qed.

Lemma scan_entries_ok lines st :
  current_book st ∈ book_ids → map_Forall entry_ok (verses st) →
  current_book (scan st lines) ∈ book_ids
  ∧ map_Forall entry_ok (verses (scan st lines)).
Proof.
  revert st. induction lines as [|line lines IH]; intros st Hb Hvs; [done|].
  rewrite scan_cons. pose proof (locate_book st line Hb) as Hb'.
  apply IH; rewrite LocatorFacts.step_eq;
    destruct (locate st line) as [[book chapter] verse];
    cbn [current_book verses]; [done|].
  by apply record_hebrew_ok.
Qed.

(** X11.  Every entry of the output of [parse_verses_from_text] has the key
    of a verse numbered from 1 on of one of the five books of the book
    patterns (whatever books the text covers), and a text that is not empty
    and is made of Hebrew-script code points and spaces only. *)
Theorem output_entries_ok t : map_Forall entry_ok (parse_verses_from_text t).
Proof.
  unfold parse_verses_from_text. apply scan_entries_ok.
  - by left.
  - apply map_Forall_empty.
Qed.

(** *** Numbers in keys and references *)

Lemma string_of_uint_digits d :
  Forall (λ c, 48 ≤ c ≤ 57) (lit (NilEmpty.string_of_uint d)).
Proof.
  induction d; simpl; [apply Forall_nil_2|..];
    (apply Forall_cons_2; [by vm_compute | done]).
Qed.

Lemma int_of_digits_uint d a :
  foldl (λ acc c, 10 * acc + default 0 (Py.digit_value c))
        (DecimalPos.Unsigned.of_lu a) (lit (NilEmpty.string_of_uint d))
  = DecimalPos.Unsigned.of_lu (Decimal.revapp d a).
Proof.
  revert a. induction d; intros a; [done|..];
    simpl Decimal.revapp; rewrite <- IHd; simpl NilEmpty.string_of_uint;
    unfold lit; simpl list_ascii_of_string; rewrite fmap_cons;
    cbn [foldl]; f_equal;
    simpl DecimalPos.Unsigned.of_lu;
    match goal with
    | |- context [Py.digit_value ?c] =>
        let v := eval vm_compute in (Py.digit_value c) in
        change (Py.digit_value c) with v
    end; cbn [default]; unfold id; lia.
Qed.

Lemma int_of_digits_str n : Py.int_of_digits (Py.str_of_N n) = n.
Proof.
  unfold Py.int_of_digits, Py.str_of_N.
  change 0 with (DecimalPos.Unsigned.of_lu Decimal.Nil) at 2.
  rewrite int_of_digits_uint.
  change (Decimal.revapp (N.to_uint n) Decimal.Nil)
    with (Decimal.rev (N.to_uint n)).
  rewrite <- DecimalPos.Unsigned.of_uint_alt.
  apply DecimalN.Unsigned.of_to.
Qed.

Lemma str_of_N_injective n m : Py.str_of_N n = Py.str_of_N m → n = m.
Proof.
  intros H. rewrite <- (int_of_digits_str n), <- (int_of_digits_str m).
  by rewrite H.
Qed.

Lemma str_of_N_digits n : Forall (λ c, 48 ≤ c ≤ 57) (Py.str_of_N n).
Proof. apply string_of_uint_digits. Qed.










Lemma split_at_hyphen x x' r r' :
  45 ∉ x → 45 ∉ x' → x ++ 45 :: r = x' ++ 45 :: r' → x = x' ∧ r = r'.
Proof.
  revert x'. induction x as [|c x IH]; intros [|c' x'] Hx Hx' H.
  - by injection H as ->.
  - injection H as <- _. exfalso. apply Hx'. by left.
  - injection H as -> _. exfalso. apply Hx. by left.
  - injection H as -> H.
    apply not_elem_of_cons in Hx as [_ Hx].
    apply not_elem_of_cons in Hx' as [_ Hx'].
    by destruct (IH x' Hx Hx' H) as [-> ->].
Qed.

Lemma str_of_N_no_hyphen n : 45 ∉ Py.str_of_N n.
Proof.
  intros H. pose proof (str_of_N_digits n) as Hd.
  rewrite Forall_forall in Hd. apply Hd in H. lia.
Qed.

(** X13.  The key format is unambiguous: for book ids without a hyphen
    (all the ids of the book patterns), two keys are equal only when the
    book, the chapter and the verse are. *)
Theorem verse_key_injective book chapter verse book' chapter' verse' :
  45 ∉ book → 45 ∉ book' →
  verse_key book chapter verse = verse_key book' chapter' verse' →
  book = book' ∧ chapter = chapter' ∧ verse = verse'.
Proof.
  unfold verse_key. intros Hb Hb' H.
  change (lit "-") with [45] in H. cbn [app] in H.
  apply split_at_hyphen in H as [-> H]; [|done..].
  apply split_at_hyphen in H as [Hc Hv]; [|apply str_of_N_no_hyphen..].
  by rewrite (str_of_N_injective _ _ Hc), (str_of_N_injective _ _ Hv).
Qed.

Lemma verse_key_injective_witness :
  Forall (λ book, 45 ∉ book) book_ids
  ∧ lit "exodus" = lit "exodus" ∧ 20 = 20 ∧ 13 = 13.
Proof.
  split.
  - unfold book_ids, book_patterns.
    repeat (apply Forall_cons_2;
            [apply (bool_decide_unpack _); by vm_compute|]).
    apply Forall_nil_2.
  - apply (verse_key_injective (lit "exodus") 20 13 (lit "exodus") 20 13);
      [apply (bool_decide_unpack _); by vm_compute.. | reflexivity].
Defined.

End LocatorExtras.




(** ** extract_scriptures_ocr.py: pages of a document *)

Module PagesFacts.

Import ProcessPdf PagesSpec.

Lemma str_of_Z_injective z z' : Py.str_of_Z z = Py.str_of_Z z' → z = z'.
Proof.
  unfold Py.str_of_Z.
  destruct (Z.ltb_spec z 0) as [Hz|Hz], (Z.ltb_spec z' 0) as [Hz'|Hz'];
    intros Heq.
  - injection Heq as Heq. apply LocatorExtras.str_of_N_injective in Heq. lia.
  - exfalso. apply (LocatorExtras.str_of_N_no_hyphen (Z.to_N z')).
    rewrite <- Heq. by left.
  - exfalso. apply (LocatorExtras.str_of_N_no_hyphen (Z.to_N z)).
    rewrite Heq. by left.
  - apply LocatorExtras.str_of_N_injective in Heq. lia.
Qed.

Lemma page_key_injective n n' : page_key n = page_key n' → n = n'.
Proof.
  unfold page_key. intros H%app_inv_head%str_of_Z_injective. lia.
Qed.

Lemma hebrew_total_app ps qs :
  hebrew_total (ps ++ qs) = (hebrew_total ps + hebrew_total qs)%Z.
Proof. induction ps as [|p ps IH]; simpl; [done|]. rewrite IH. lia. Qed.

Lemma greek_total_app ps qs :
  greek_total (ps ++ qs) = (greek_total ps + greek_total qs)%Z.
Proof. induction ps as [|p ps IH]; simpl; [done|]. rewrite IH. lia. Qed.

Lemma startswith_app x a b :
  Py.startswith x a = true → Py.startswith x (a ++ b) = true.
Proof.
  revert a. induction x as [|c x IH]; intros [|d a]; simpl; try done.
  intros [-> H]%andb_true_iff. by rewrite IH.
Qed.

Lemma contains_app_l x a b :
  Py.contains x a = true → Py.contains x (a ++ b) = true.
Proof.
  induction a as [|c a IH]; simpl.
  - destruct x; [|done]. intros _. apply ReFacts.contains_empty.
  - intros [H|H]%orb_true_iff.
    + pose proof (startswith_app x (c :: a) b H) as H'.
      change ((c :: a) ++ b) with (c :: a ++ b) in H'. by rewrite H'.
    + rewrite IH by done. apply orb_true_r.
Qed.

Lemma contains_app_r x a b :
  Py.contains x b = true → Py.contains x (a ++ b) = true.
Proof.
  intros H. induction a as [|c a IH]; [done|].
  simpl. rewrite IH. apply orb_true_r.
Qed.

Lemma contains_join x ps p :
  p ∈ ps → Py.contains x p = true →
  Py.contains x (Py.join (lit " ") ps) = true.
Proof.
  intros Hin Hp. induction ps as [|q ps IH]; [by apply elem_of_nil in Hin|].
  apply elem_of_cons in Hin as [<-|Hin].
  - destruct ps; [done|]. by apply contains_app_l.
  - destruct ps as [|q' ps]; [by apply elem_of_nil in Hin|].
    change (Py.join (lit " ") (q :: q' :: ps))
      with (q ++ lit " " ++ Py.join (lit " ") (q' :: ps)).
    apply contains_app_r, contains_app_r. by apply IH.
Qed.

Lemma validate_against_known_eq pages :
  validate_against_known pages
  = ((λ e, (lit "hebrew_" ++ e.1,
            Py.contains e.2
              (Py.join (lit " ")
                 ((λ p, entry_hebrew_text p.2) <$> pages))))
     <$> KNOWN_HEBREW)
    ++ ((λ e, (lit "greek_" ++ e.1,
               Py.contains e.2
                 (Py.join (lit " ")
                    ((λ p, entry_greek_text p.2) <$> pages))))
        <$> KNOWN_GREEK).
Proof. reflexivity. Qed.

(** X16.  [validate_against_known] reports a known verse as found as soon
    as the Hebrew (Greek) text of one stored page contains it, and reports
    every known verse as not found when no page is stored. *)
Theorem known_verse_validation pages :
  Forall (λ e,
            dict_get (lit "hebrew_" ++ e.1) (validate_against_known pages)
            = Some (Py.contains e.2
                      (Py.join (lit " ")
                         ((λ p, entry_hebrew_text p.2) <$> pages)))
            ∧ (∀ p, p ∈ pages →
                 Py.contains e.2 (entry_hebrew_text p.2) = true →
                 dict_get (lit "hebrew_" ++ e.1)
                          (validate_against_known pages) = Some true)
            ∧ (pages = [] →
                 dict_get (lit "hebrew_" ++ e.1)
                          (validate_against_known pages) = Some false))
         KNOWN_HEBREW
  ∧ Forall (λ e,
              dict_get (lit "greek_" ++ e.1) (validate_against_known pages)
              = Some (Py.contains e.2
                        (Py.join (lit " ")
                           ((λ p, entry_greek_text p.2) <$> pages)))
              ∧ (∀ p, p ∈ pages →
                   Py.contains e.2 (entry_greek_text p.2) = true →
                   dict_get (lit "greek_" ++ e.1)
                            (validate_against_known pages) = Some true)
              ∧ (pages = [] →
                   dict_get (lit "greek_" ++ e.1)
                            (validate_against_known pages) = Some false))
           KNOWN_GREEK.
Proof.
  rewrite validate_against_known_eq.
  assert (∀ x (f : text * PageEntry → text) p,
            p ∈ pages → Py.contains x (f p) = true →
            Py.contains x (Py.join (lit " ") (f <$> pages)) = true) as Hfound.
  { intros x f p Hin Hp. apply (contains_join x _ (f p)); [|done].
    apply list_elem_of_fmap. by exists p. }
  split; unfold KNOWN_HEBREW, KNOWN_GREEK;
    repeat (apply Forall_cons_2;
            [cbv beta;
             match goal with
             | |- ?A ∧ _ => assert A as Heq by reflexivity
             end;
             split_and!;
             [exact Heq
             | intros p Hin Hp; rewrite Heq; f_equal;
               by apply (Hfound _ _ p)
             | by intros ->]|]);
    apply Forall_nil_2.
Qed.

Lemma range_NoDup a b : NoDup (LanguageDetector.range a b).
Proof.
  unfold LanguageDetector.range. apply NoDup_fmap_2; [|apply NoDup_seq].
  intros i j. lia.
Qed.

Lemma range_length a b :
  length (LanguageDetector.range a b) = Z.to_nat (b - a).
Proof. unfold LanguageDetector.range. by rewrite length_fmap, length_seq. Qed.

Section Pages.

Variable Image : Type.
Variable mode : Image → string.
Variable convert : string → Image → Image.
Variable Contrast_enhance : Image → Q → Image.
Variable filter_SHARPEN : Image → Image.
Variable filter_MedianFilter : Z → Image → Image.
Variable point : (Z → Z) → string → Image → Image.
Variable pdf_page_to_image : Z → Z → option Image.
Variable image_to_string : Image → text → option text.

Local Notation extract_from_page :=
  (extract_from_page Image mode convert Contrast_enhance filter_SHARPEN
     filter_MedianFilter point pdf_page_to_image image_to_string).
Local Notation process_page :=
  (process_page Image mode convert Contrast_enhance filter_SHARPEN
     filter_MedianFilter point pdf_page_to_image image_to_string).
Local Notation process_pdf :=
  (process_pdf Image mode convert Contrast_enhance filter_SHARPEN
     filter_MedianFilter point pdf_page_to_image image_to_string).

Lemma extract_from_page_counts page_num config r :
  extract_from_page page_num config = Some r →
  hebrew_count r = Z.of_nat (length (hebrew_segments r))
  ∧ greek_count r = Z.of_nat (length (greek_segments r)).
Proof.
  unfold ProcessPdf.extract_from_page.
  destruct (pdf_page_to_image _ _) as [img|]; [|done]. cbn [mbind option_bind].
  destruct (LanguageDetector.detect_language _ _ _ _) as [d|]; [|done].
  cbn [mbind option_bind]. by intros [= <-].
Qed.

Lemma process_pages_invariant config todo seen results :
  NoDup (seen ++ todo) →
  pages_processed results = Z.of_nat (length (pages results)) →
  total_hebrew results = hebrew_total (pages results) →
  total_greek results = greek_total (pages results) →
  (∀ k, k ∈ (pages results).*1 → ∃ n, n ∈ seen ∧ k = page_key n) →
  (length (pages results) ≤ length seen)%nat →
  let final := foldl (process_page config) results todo in
  pages_processed final = Z.of_nat (length (pages final))
  ∧ total_hebrew final = hebrew_total (pages final)
  ∧ total_greek final = greek_total (pages final)
  ∧ (length (pages final) ≤ length (seen ++ todo))%nat.
Proof.
  revert seen results.
  induction todo as [|n todo IH]; intros seen results Hnd Hp Hh Hg Hk Hl.
  { cbn. rewrite app_nil_r. done. }
  cbn [foldl]. replace (seen ++ n :: todo) with ((seen ++ [n]) ++ todo)
    in * by (by rewrite <- app_assoc).
  assert (n ∉ seen) as Hn.
  { apply NoDup_app in Hnd as (Hnd & _ & _).
    apply NoDup_app in Hnd as (_ & Hnd & _).
    intros Hin. apply (Hnd n Hin). by left. }
  assert (∀ k, k ∈ (pages results).*1 →
               ∃ n', n' ∈ seen ++ [n] ∧ k = page_key n') as Hk'.
  { intros k Hin. destruct (Hk _ Hin) as (n' & Hn' & He). exists n'.
    split; [|done]. apply elem_of_app. by left. }
  unfold ProcessPdf.process_page.
  destruct (extract_from_page n config) as [r|] eqn:E.
  - destruct (extract_from_page_counts n config r E) as [Ec1 Ec2].
    assert (page_key n ∉ (pages results).*1) as Hfresh.
    { intros Hin. destruct (Hk _ Hin) as (n' & Hn' & He).
      apply page_key_injective in He. by subst n'. }
    apply IH; [done|..]; cbn [pages total_hebrew total_greek pages_processed];
      rewrite (OcrFacts.dict_set_fresh _ _ _ Hfresh).
    + rewrite length_app. simpl. lia.
    + rewrite hebrew_total_app. simpl. lia.
    + rewrite greek_total_app. simpl. lia.
    + intros k. rewrite fmap_app, elem_of_app. intros [Hin|Hin].
      * by apply Hk'.
      * apply list_elem_of_singleton in Hin. exists n.
        split; [|done]. apply elem_of_app. right. by left.
    + rewrite !length_app. simpl. lia.
  - apply IH; [done..|]. rewrite length_app. simpl. lia.
Qed.

(** X14.  The summary of [process_pdf] agrees with the pages it stores:
    [pages_processed] is the number of stored pages, [total_hebrew] and
    [total_greek] are the numbers of Hebrew and Greek segments stored in
    them (no page overwrites another), and no more pages are processed than
    asked for or than the document has from the start page on. *)
Theorem process_pdf_totals total_pages start_page num_pages config :
  pages_processed (process_pdf total_pages start_page num_pages config)
  = Z.of_nat
      (length (pages (process_pdf total_pages start_page num_pages config)))
  ∧ total_hebrew (process_pdf total_pages start_page num_pages config)
    = hebrew_total
        (pages (process_pdf total_pages start_page num_pages config))
  ∧ total_greek (process_pdf total_pages start_page num_pages config)
    = greek_total
        (pages (process_pdf total_pages start_page num_pages config))
  ∧ (pages_processed (process_pdf total_pages start_page num_pages config)
     ≤ Z.max 0 num_pages)%Z
  ∧ (pages_processed (process_pdf total_pages start_page num_pages config)
     ≤ Z.max 0 (total_pages - start_page))%Z.
Proof.
  unfold ProcessPdf.process_pdf.
  destruct (process_pages_invariant config
              (LanguageDetector.range start_page
                 (Z.min (start_page + num_pages) total_pages))
              [] {| pages := []; total_hebrew := 0; total_greek := 0;
                    pages_processed := 0 |})
    as (Hp & Hh & Hg & Hl); [apply range_NoDup | done.. | by intros k Hk%elem_of_nil | done |].
  cbn [app] in Hl. rewrite range_length in Hl.
  split_and!; [done | done | done | |]; rewrite Hp; lia.
Qed.


End Pages.


End PagesFacts.

(** ** verify_ocr_accuracy.py: the pages and the verses checked *)

Module VerifyExtras.

Import VerifyOcr.

Lemma scan_runs_space cls cur a b :
  cls 32 = false →
  Re.scan_runs cls cur (a ++ 32 :: b)
  = Re.scan_runs cls cur a ++ Re.scan_runs cls [] b.
Proof.
  intros Hsp. revert cur. induction a as [|c a IH]; intros cur; simpl.
  - by rewrite Hsp.
  - destruct (cls c); [apply IH|]. by rewrite IH, app_assoc.
Qed.

Lemma findall_space cls a b :
  cls 32 = false →
  Re.findall cls (a ++ lit " " ++ b) = Re.findall cls a ++ Re.findall cls b.
Proof. intros Hsp. by apply scan_runs_space. Qed.

Lemma verified_verses_found_count checked :
  verified_verses_found checked
  = Z.of_nat
      (length (filter (λ r : text * bool * Q,
                         r.1.2 && negb (Qle_bool r.2 0.3%Q) = true) checked)).
Proof.
  unfold verified_verses_found.
  assert (∀ n,
            foldl (λ n (r : text * bool * Q),
                     if r.1.2 && negb (Qle_bool r.2 0.3%Q)
                     then (n + 1)%Z else n) n checked
            = (n + Z.of_nat
                     (length (filter (λ r : text * bool * Q,
                                r.1.2 && negb (Qle_bool r.2 0.3%Q) = true)
                                checked)))%Z) as H.
  { induction checked as [|r checked IH]; intros n; simpl; [lia|].
    rewrite IH, filter_cons.
    destruct (r.1.2 && negb (Qle_bool r.2 0.3%Q)) eqn:E.
    - rewrite decide_True by done. simpl. lia.
    - rewrite decide_False by (by intros ?). lia. }
  by rewrite H.
Qed.

(** X19.  [verify_ocr_accuracy] checks the first twenty reference verses
    at most, in the order of the corpus; the number of verses it counts as
    found is at most the number checked, and at least the number of checked
    verses whose reference text is empty (each is reported as found with
    similarity 1.0). *)
Theorem verses_checked_cap all_ocr_text verified_data script_pattern :
  length (check_verses all_ocr_text verified_data script_pattern)
  = Nat.min 20 (length verified_data)
  ∧ (λ r, r.1.1) <$> check_verses all_ocr_text verified_data script_pattern
    = take 20 verified_data.*1
  ∧ (verified_verses_found
       (check_verses all_ocr_text verified_data script_pattern)
     ≤ Z.of_nat
         (length (check_verses all_ocr_text verified_data script_pattern)))%Z
  ∧ (Z.of_nat (length (filter (λ e, e.2 = []) (take 20 verified_data)))
     ≤ verified_verses_found
         (check_verses all_ocr_text verified_data script_pattern))%Z.
Proof.
  rewrite verified_verses_found_count. unfold check_verses.
  split_and!.
  - by rewrite length_fmap, length_take.
  - rewrite <- list_fmap_compose, <- fmap_take. apply list_fmap_ext.
    intros i [verse_ref verified_text] _. simpl.
    by destruct (find_verse_in_ocr _ _ _) as [[found similarity] best].
  - apply inj_le, length_filter.
  - apply inj_le.
    set (f := λ '(verse_ref, verified_text),
                let '(found, similarity, _) :=
                  find_verse_in_ocr all_ocr_text verified_text script_pattern
                in (verse_ref, found, similarity)).
    assert (∀ ref, f (ref, []) = (ref, true, 1%Q)) as Hf.
    { intros ref. unfold f, find_verse_in_ocr.
      by rewrite ReFacts.contains_empty. }
    induction (take 20 verified_data) as [|[ref expected] l IH]; [done|].
    rewrite fmap_cons, !filter_cons.
    destruct (decide ((ref, expected).2 = [])) as [E|Hne].
    + simpl in E. subst expected. rewrite Hf.
      rewrite decide_True by done. simpl. lia.
    + destruct (decide _); simpl; lia.
Qed.

Section Ocr.

Variable Image : Type.
Variable mode : Image → string.
Variable convert : string → Image → Image.
Variable Contrast_enhance : Image → Q → Image.
Variable filter_SHARPEN : Image → Image.
Variable filter_MedianFilter : Z → Image → Image.
Variable point : (Z → Z) → string → Image → Image.
Variable pdf_page_to_image : Z → Z → option Image.
Variable image_to_string : Image → text → option text.

(** X17.  The verifier reads a page as the extraction script does with its
    default configuration, except that the median filter is left out: the
    preprocessing of [verify_ocr_accuracy.py] is that of
    [extract_scriptures_ocr.py] with denoise off, [ocr_page] is
    [run_tesseract] on it with the same engine options, and the default
    preprocessing of the extraction is the verifier's followed by the
    median filter. *)
Theorem verifier_reads_without_denoise img :
  preprocess_image Image mode convert Contrast_enhance filter_SHARPEN img
  = ExtractOcr.preprocess_image Image mode convert Contrast_enhance
      filter_SHARPEN filter_MedianFilter point img PagesSpec.verifier_config
  ∧ ocr_page Image mode convert Contrast_enhance filter_SHARPEN
             image_to_string img
    = ProcessPdf.run_tesseract Image image_to_string
        (ExtractOcr.preprocess_image Image mode convert Contrast_enhance
           filter_SHARPEN filter_MedianFilter point img
           PagesSpec.verifier_config)
        PagesSpec.verifier_config
  ∧ ExtractOcr.preprocess_image Image mode convert Contrast_enhance
      filter_SHARPEN filter_MedianFilter point img
      ExtractOcr.OCRConfig_default
    = filter_MedianFilter 3
        (preprocess_image Image mode convert Contrast_enhance filter_SHARPEN
           img).
Proof. by split_and!. Qed.

Lemma scan_pages_invariant cls pages scan :
  cls 32 = false →
  total_ocr_segments scan
  = Z.of_nat (length (Re.findall cls (all_ocr_text scan))) →
  total_ocr_segments
    (foldl (scan_page Image mode convert Contrast_enhance filter_SHARPEN
              pdf_page_to_image image_to_string (Re.findall cls))
           scan pages)
  = Z.of_nat
      (length
         (Re.findall cls
            (all_ocr_text
               (foldl (scan_page Image mode convert Contrast_enhance
                         filter_SHARPEN pdf_page_to_image image_to_string
                         (Re.findall cls))
                      scan pages))))
  ∧ (pages_checked scan
     ≤ pages_checked
         (foldl (scan_page Image mode convert Contrast_enhance filter_SHARPEN
                   pdf_page_to_image image_to_string (Re.findall cls))
                scan pages)
     ≤ pages_checked scan + Z.of_nat (length pages))%Z.
Proof.
  intros Hsp. revert scan.
  induction pages as [|n pages IH]; intros scan Hs; cbn [foldl length].
  - split; [exact Hs | lia].
  - destruct (IH (scan_page Image mode convert Contrast_enhance
                    filter_SHARPEN pdf_page_to_image image_to_string
                    (Re.findall cls) scan n)) as [H1 H2].
    { unfold scan_page. destruct (pdf_page_to_image n 300); [|exact Hs].
      cbn [all_ocr_text total_ocr_segments].
      rewrite findall_space, length_app, Hs by done. lia. }
    split; [exact H1|].
    assert (pages_checked scan
            ≤ pages_checked
                (scan_page Image mode convert Contrast_enhance filter_SHARPEN
                   pdf_page_to_image image_to_string (Re.findall cls) scan n)
            ≤ pages_checked scan + 1)%Z as Hstep.
    { unfold scan_page. destruct (pdf_page_to_image n 300);
        cbn [pages_checked]; lia. }
    lia.
Qed.

(** X18.  The count of segments [verify_ocr_accuracy] reports is the count
    of segments of the text the verses are checked against: the texts of
    the pages are put together with spaces, which are not of the script, so
    the runs of the whole are the runs of the pages; and no more pages are
    checked than asked for. *)
Theorem scan_pages_segments cls total_pages start_page sample_pages :
  cls 32 = false →
  total_ocr_segments
    (scan_pages Image mode convert Contrast_enhance filter_SHARPEN
       pdf_page_to_image image_to_string (Re.findall cls)
       total_pages start_page sample_pages)
  = Z.of_nat
      (length
         (Re.findall cls
            (all_ocr_text
               (scan_pages Image mode convert Contrast_enhance filter_SHARPEN
                  pdf_page_to_image image_to_string (Re.findall cls)
                  total_pages start_page sample_pages))))
  ∧ (0 ≤ pages_checked
           (scan_pages Image mode convert Contrast_enhance filter_SHARPEN
              pdf_page_to_image image_to_string (Re.findall cls)
              total_pages start_page sample_pages)
     ≤ Z.max 0 sample_pages)%Z.
Proof.
  intros Hsp. unfold scan_pages.
  edestruct (scan_pages_invariant cls) as [H1 H2];
    [done | | split; [exact H1|]]; [done|].
  cbn [pages_checked] in H2. rewrite PagesFacts.range_length in H2. lia.
Qed.

End Ocr.

Lemma scan_pages_segments_witness :
  total_ocr_segments
    (scan_pages ChainSpec.toy_image fst ChainSpec.toy_convert
       ChainSpec.toy_contrast ChainSpec.toy_filter PagesSpec.toy_render
       PagesSpec.toy_engine HEBREW_PATTERN 10 1 5) = 4%Z
  ∧ total_ocr_segments
      (scan_pages ChainSpec.toy_image fst ChainSpec.toy_convert
         ChainSpec.toy_contrast ChainSpec.toy_filter PagesSpec.toy_render
         PagesSpec.toy_engine (Re.findall hebrew_class) 10 1 5)
    = Z.of_nat
        (length
           (Re.findall hebrew_class
              (all_ocr_text
                 (scan_pages ChainSpec.toy_image fst ChainSpec.toy_convert
                    ChainSpec.toy_contrast ChainSpec.toy_filter
                    PagesSpec.toy_render PagesSpec.toy_engine
                    (Re.findall hebrew_class) 10 1 5)))).
Proof.
  split; [by vm_compute|].
  apply (scan_pages_segments ChainSpec.toy_image fst ChainSpec.toy_convert
           ChainSpec.toy_contrast ChainSpec.toy_filter PagesSpec.toy_render
           PagesSpec.toy_engine hebrew_class 10 1 5).
  reflexivity.
Defined.

(** *** Normalization *)

Local Notation rstrip s := (rev (lstrip (rev s))).
Local Notation word_char := (λ c : N, negb (Py.isspace c)).

Lemma lstrip_spaces a b :
  Forall (λ c, Py.isspace c = true) a → lstrip (a ++ b) = lstrip b.
Proof. induction 1 as [|c a Hc _ IH]; simpl; [done|]. by rewrite Hc. Qed.

Lemma lstrip_app a b : lstrip a ≠ [] → lstrip (a ++ b) = lstrip a ++ b.
Proof.
  induction a as [|c a IH]; simpl; [done|].
  destruct (Py.isspace c); [apply IH | done].
Qed.

Lemma lstrip_nil a : lstrip a = [] → Forall (λ c, Py.isspace c = true) a.
Proof.
  induction a as [|c a IH]; simpl; [constructor|].
  destruct (Py.isspace c) eqn:E; [|done]. intros H. constructor; auto.
Qed.

Lemma rstrip_spaces a b :
  Forall (λ c, Py.isspace c = true) b → rstrip (a ++ b) = rstrip a.
Proof.
  intros Hb. rewrite rev_app_distr, lstrip_spaces; [done|].
  by apply Forall_rev.
Qed.

Lemma rstrip_app a b : rstrip b ≠ [] → rstrip (a ++ b) = a ++ rstrip b.
Proof.
  intros Hb. rewrite rev_app_distr, lstrip_app.
  - by rewrite rev_app_distr, rev_involutive.
  - intros H. apply Hb. by rewrite H.
Qed.

Lemma rstrip_nil b : rstrip b = [] → Forall (λ c, Py.isspace c = true) b.
Proof.
  intros H. rewrite <- (rev_involutive b). apply Forall_rev, lstrip_nil.
  apply (f_equal (@rev N)) in H. by rewrite rev_involutive in H.
Qed.

Lemma rstrip_word w : Forall (λ c, word_char c = true) w → rstrip w = w.
Proof.
  intros Hw. destruct (rev w) as [|c r] eqn:E.
  - apply (f_equal (@rev N)) in E. rewrite rev_involutive in E. by subst w.
  - assert (word_char c = true) as Hc.
    { apply Forall_rev in Hw. rewrite E in Hw. by apply Forall_cons in Hw as [? _]. }
    simpl. apply negb_true_iff in Hc. rewrite Hc, <- E.
    apply rev_involutive.
Qed.

Lemma collapse_true_head u :
  match collapse_spaces true u with
  | [] => True
  | c :: _ => Py.isspace c = false
  end.
Proof.
  induction u as [|c u IH]; simpl; [done|].
  by destruct (Py.isspace c) eqn:E.
Qed.

Lemma lstrip_collapse u :
  lstrip (collapse_spaces false u) = collapse_spaces true u.
Proof.
  destruct u as [|c u]; [done|]. simpl.
  destruct (Py.isspace c) eqn:E; simpl; [|by rewrite E].
  pose proof (collapse_true_head u) as H.
  destruct (collapse_spaces true u) as [|d r]; simpl; [done|]. by rewrite H.
Qed.

(** The words of a text, joined by single spaces, are what is left of it
    when its white space is collapsed and the white space at its end is
    removed; [cur] is the word being read. *)
Lemma words_collapse u cur :
  Forall (λ c, word_char c = true) cur →
  Py.join (lit " ") (Re.scan_runs word_char cur u)
  = rstrip (cur ++ collapse_spaces (bool_decide (cur = [])) u).
Proof.
  revert cur. induction u as [|c u IH]; intros cur Hcur.
  - simpl. rewrite app_nil_r, rstrip_word by done. by destruct cur.
  - cbn [Re.scan_runs collapse_spaces].
    destruct (Py.isspace c) eqn:E; cbn [negb].
    + pose proof (IH [] (Forall_nil_2 _)) as IH0.
      rewrite bool_decide_eq_true_2 in IH0 by done. cbn [app] in IH0.
      destruct cur as [|x cur]; cbn [Re.close_run].
      * by rewrite bool_decide_eq_true_2 by done.
      * rewrite bool_decide_eq_false_2 by done.
        pose proof (ReFacts.scan_runs_nonempty word_char [] u) as Hne.
        destruct (Re.scan_runs word_char [] u) as [|w ws] eqn:Ew.
        -- change (Py.join (lit " ") []) with (@nil N) in IH0.
           symmetry in IH0. apply rstrip_nil in IH0.
           rewrite (rstrip_spaces (x :: cur) (32 :: collapse_spaces true u))
             by (by constructor).
           by rewrite rstrip_word.
        -- transitivity ((x :: cur) ++ 32 :: Py.join (lit " ") (w :: ws));
             [done|].
           rewrite IH0.
           change ((x :: cur) ++ 32 :: collapse_spaces true u)
             with ((x :: cur) ++ [32] ++ collapse_spaces true u).
           rewrite app_assoc, rstrip_app; [by rewrite <- app_assoc|].
           rewrite <- IH0. apply DetectorExtras.join_nonempty; done.
    + rewrite IH.
      * rewrite bool_decide_eq_false_2 by (by destruct cur).
        rewrite <- app_assoc. by destruct cur.
      * apply Forall_app. split; [done|]. constructor; [|done].
        by rewrite E.
Qed.

Lemma strip_collapse_words u :
  strip (collapse_spaces false u) = Py.join (lit " ") (split u).
Proof.
  unfold strip, split, Re.findall. rewrite lstrip_collapse.
  by rewrite (words_collapse _ []) by constructor.
Qed.

Lemma scan_runs_chars (P : N → Prop) cls cur s :
  Forall P cur → Forall P s → Forall (Forall P) (Re.scan_runs cls cur s).
Proof.
  assert (∀ run, Forall P run → Forall (Forall P) (Re.close_run run))
    as Hclose.
  { intros [|x run] H; simpl; [apply Forall_nil_2|].
    apply Forall_cons_2; [done | apply Forall_nil_2]. }
  intros Hcur Hs. revert cur Hcur.
  induction Hs as [|c s Hc Hs IH]; intros cur Hcur; simpl.
  - by apply Hclose.
  - destruct (cls c).
    + apply IH, Forall_app. split; [done|].
      apply Forall_cons_2; [done | apply Forall_nil_2].
    + apply Forall_app. split; [by apply Hclose|]. apply IH, Forall_nil_2.
Qed.

Lemma delete_class_clean cls s :
  Forall (λ c, cls c = false) s → Re.delete_class cls s = s.
Proof.
  unfold Re.delete_class. induction 1 as [|c s Hc _ IH]; [done|].
  rewrite filter_cons_True by done. by rewrite IH.
Qed.

Lemma delete_class_chars cls s :
  Forall (λ c, cls c = false) (Re.delete_class cls s).
Proof.
  apply Forall_forall. intros c Hc.
  by apply list_elem_of_filter in Hc as [? _].
Qed.

Lemma delete_class_keeps (P : N → Prop) cls s :
  Forall P s → Forall P (Re.delete_class cls s).
Proof.
  rewrite !Forall_forall. intros H c Hc.
  apply list_elem_of_filter in Hc as [_ Hc]. by apply H.
Qed.

(** X20.  [normalize_text] deletes the Hebrew marks U+0591..U+05C7 and the
    combining diacritics U+0300..U+036F, and gives the words of what is
    left (as [split] gives them) joined by single spaces. *)
Theorem normalize_text_words t :
  normalize_text t
  = Py.join (lit " ")
      (split
         (Re.delete_class (λ c, (0x0300 <=? c) && (c <=? 0x036F))
            (Re.delete_class (λ c, (0x0591 <=? c) && (c <=? 0x05C7)) t))).
Proof. unfold normalize_text. apply strip_collapse_words. Qed.

(** X21.  [normalize_text] is idempotent: a normalized text is its own
    normal form, so comparing normalized texts compares like with like. *)
Theorem normalize_text_idempotent t :
  normalize_text (normalize_text t) = normalize_text t.
Proof.
  set (m1 := λ c : N, (0x0591 <=? c) && (c <=? 0x05C7)).
  set (m2 := λ c : N, (0x0300 <=? c) && (c <=? 0x036F)).
  assert (∀ u, normalize_text u
               = Py.join (lit " ")
                   (split (Re.delete_class m2 (Re.delete_class m1 u)))) as Hn.
  { intros u. unfold normalize_text. apply strip_collapse_words. }
  rewrite (Hn t).
  set (u := Re.delete_class m2 (Re.delete_class m1 t)).
  assert (Forall (λ c, m1 c = false ∧ m2 c = false) u) as Hu.
  { apply Forall_and. split.
    - apply (delete_class_keeps (λ c, m1 c = false)), delete_class_chars.
    - apply delete_class_chars. }
  assert (Forall (λ c, m1 c = false ∧ m2 c = false)
            (Py.join (lit " ") (split u))) as Hj.
  { apply ReFacts.join_chars; [done|].
    apply scan_runs_chars; [apply Forall_nil_2 | done]. }
  apply Forall_and in Hj as [Hj1 Hj2].
  rewrite Hn, (delete_class_clean m1), (delete_class_clean m2) by done.
  unfold split at 1. rewrite ReFacts.findall_join; [done..|].
  apply DetectorExtras.findall_words.
Qed.

End VerifyExtras.

